(** * MistClon ingredient parser: a model of [parser_server.py]

    The development embeds the post-processing code of the Flask server
    (the quantity/name normalizer, the extraction loop, the duplicate
    merge and the [/parse] route) and proves the properties the design
    notes state about it.

    Modelling choices.
    - A Python [str] is a [string] whose characters are the code points
      below 256 (Latin-1).  [isspace] and [lower_char] follow Python's
      [str.isspace] and [str.lower] on that range.
    - Values coming back from the extraction backend are dynamically
      typed: they are modelled by [pyval] (None, bool, int, str, list,
      dict).  Integers stand for all numbers; the code only tests them
      for truthiness.
    - Exceptions are values of [exn]; code that can raise returns a
      [result].  Only subclasses of [Exception] are modelled.
    - The regular expressions of the source are run by a small
      backtracking matcher with the search order of Python's [re]. *)

From Stdlib Require Import Bool Arith NArith ZArith Lia List.
From Stdlib Require Import Ascii String.
Import ListNotations.

Set Warnings "-register-all".

Local Open Scope string_scope.
Local Open Scope bool_scope.

(** ** Characters and strings *)

Module Str.

Definition code (c : ascii) : N := N_of_ascii c.

Definition between (lo hi n : N) : bool := (N.leb lo n) && (N.leb n hi).

(** [str.isspace] on one code point below 256. *)
Definition isspace (c : ascii) : bool :=
  let n := code c in
  between 9 13 n || between 28 32 n || N.eqb n 133 || N.eqb n 160.

(** Characters with a lower-case counterpart: A-Z and the upper-case
    Latin-1 letters (the multiplication sign 215 is not a letter). *)
Definition isupper (c : ascii) : bool :=
  let n := code c in
  between 65 90 n || (between 192 222 n && negb (N.eqb n 215)).

Definition lower_char (c : ascii) : ascii :=
  if isupper c then ascii_of_N (code c + 32) else c.

(** [s.lower()] *)
Fixpoint lower (s : string) : string :=
  match s with
  | EmptyString => EmptyString
  | String c s' => String (lower_char c) (lower s')
  end.

Fixpoint lstrip (s : string) : string :=
  match s with
  | EmptyString => EmptyString
  | String c s' => if isspace c then lstrip s' else s
  end.

Fixpoint rstrip (s : string) : string :=
  match s with
  | EmptyString => EmptyString
  | String c s' =>
      match rstrip s' with
      | EmptyString => if isspace c then EmptyString else String c EmptyString
      | r => String c r
      end
  end.

(** [s.strip()] *)
Definition strip (s : string) : string := rstrip (lstrip s).

(** [s.startswith(sub)] *)
Fixpoint startswith (sub s : string) : bool :=
  match sub with
  | EmptyString => true
  | String a sub' =>
      match s with
      | EmptyString => false
      | String c s' => Ascii.eqb a c && startswith sub' s'
      end
  end.

(** [sub in s] *)
Fixpoint contains (sub s : string) : bool :=
  startswith sub s ||
  match s with
  | EmptyString => false
  | String _ s' => contains sub s'
  end.

(** Truth value of a string: non-empty. *)
Definition nonempty (s : string) : bool :=
  match s with EmptyString => false | String _ _ => true end.

(** All characters of [s] satisfy [p]. *)
Fixpoint all (p : ascii -> bool) (s : string) : bool :=
  match s with
  | EmptyString => true
  | String c s' => p c && all p s'
  end.

(** The last character of [s], if any. *)
Fixpoint last (s : string) : option ascii :=
  match s with
  | EmptyString => None
  | String c EmptyString => Some c
  | String _ s' => last s'
  end.

Definition head (s : string) : option ascii :=
  match s with EmptyString => None | String c _ => Some c end.

(** The first [n] characters of [s]: the slice [s[:n]]. *)
Fixpoint take (n : nat) (s : string) : string :=
  match n, s with
  | S n', String c s' => String c (take n' s')
  | _, _ => EmptyString
  end.

End Str.

(** ** Regular expressions

    The fragment of Python's [re] syntax the source uses.  Repetition
    is only applied to character classes, which keeps the matcher
    structurally recursive. *)

Module Re.

Inductive regex : Type :=
| Bol                          (* ^ *)
| Eol                          (* $ *)
| Lit (l : string)             (* literal text *)
| Cls (p : ascii -> bool)      (* one character of a class *)
| Star (p : ascii -> bool)     (* class*, greedy *)
| Seq (r1 r2 : regex)
| Alt (r1 r2 : regex)          (* r1|r2, left first *)
| Opt (r : regex)              (* r?, greedy *)
| Grp (r : regex).             (* capturing group 1 *)

(** class+ *)
Definition Plus (p : ascii -> bool) : regex := Seq (Cls p) (Star p).

(** Character classes. *)
Definition space : ascii -> bool := Str.isspace.                    (* \s *)
Definition dot (c : ascii) : bool := negb (Ascii.eqb c "010").      (* . *)
Definition letter_or_hyphen (c : ascii) : bool :=                   (* [a-zA-Z\-] *)
  let n := Str.code c in
  Str.between 97 122 n || Str.between 65 90 n || N.eqb n 45.

Section Matcher.
Context {A : Type}.

(** A continuation receives the position reached, the text that is
    left and the content of group 1 so far. *)
Definition cont : Type := nat -> string -> option string -> option A.

Definition orelse (x y : option A) : option A :=
  match x with Some _ => x | None => y end.

Fixpoint lit_k (l : string) (k : cont) (pos : nat) (s : string)
    (g : option string) : option A :=
  match l with
  | EmptyString => k pos s g
  | String a l' =>
      match s with
      | String c s' => if Ascii.eqb a c then lit_k l' k (S pos) s' g else None
      | EmptyString => None
      end
  end.

(** Greedy repetition: take one more character first, fall back to
    the continuation here. *)
Fixpoint star_k (p : ascii -> bool) (k : cont) (pos : nat) (s : string)
    (g : option string) : option A :=
  match s with
  | String c s' =>
      if p c then orelse (star_k p k (S pos) s' g) (k pos s g)
      else k pos s g
  | EmptyString => k pos s g
  end.

Definition at_end (s : string) : bool :=
  match s with
  | EmptyString => true
  | String c EmptyString => Ascii.eqb c "010"
  | _ => false
  end.

Fixpoint run (r : regex) (k : cont) : cont :=
  match r with
  | Bol => fun pos s g => if Nat.eqb pos 0 then k pos s g else None
  | Eol => fun pos s g => if at_end s then k pos s g else None
  | Lit l => lit_k l k
  | Cls p => fun pos s g =>
      match s with
      | String c s' => if p c then k (S pos) s' g else None
      | EmptyString => None
      end
  | Star p => star_k p k
  | Seq r1 r2 => run r1 (run r2 k)
  | Alt r1 r2 => fun pos s g => orelse (run r1 k pos s g) (run r2 k pos s g)
  | Opt r' => fun pos s g => orelse (run r' k pos s g) (k pos s g)
  | Grp r' => fun pos s g =>
      run r' (fun pos' s' _ => k pos' s' (Some (Str.take (pos' - pos) s))) pos s g
  end.
End Matcher.

(** A successful match is represented by the value of [m.group(1)]:
    [Some text], or [None] when the group took no part in the match. *)
Definition matched : cont (A := option string) := fun _ _ g => Some g.

(** [re.match(r, s)] *)
Definition re_match (r : regex) (s : string) : option (option string) :=
  run r matched 0 s None.

Fixpoint search_from (r : regex) (pos : nat) (s : string)
    : option (option string) :=
  orelse (run r matched pos s None)
         match s with
         | EmptyString => None
         | String _ s' => search_from r (S pos) s'
         end.

(** [re.search(r, s)]: the leftmost position where [r] matches. *)
Definition re_search (r : regex) (s : string) : option (option string) :=
  search_from r 0 s.

End Re.

(** ** Insertion-ordered dictionaries

    A Python [dict] with string keys keeps its keys in the order of
    their first insertion; assigning to a key that is present replaces
    the value in place.  A dict is given by its items in that order;
    building it with [set] keeps the keys distinct. *)

Module ODict.

Definition t (V : Type) : Type := list (string * V).

Section Ops.
Context {V : Type}.

(** [d.get(key)] *)
Fixpoint get (key : string) (d : t V) : option V :=
  match d with
  | [] => None
  | (k, v) :: d' => if String.eqb k key then Some v else get key d'
  end.

(** [key in d] *)
Definition mem (key : string) (d : t V) : bool :=
  match get key d with Some _ => true | None => false end.

(** [d[key] = v] *)
Fixpoint set (key : string) (v : V) (d : t V) : t V :=
  match d with
  | [] => [(key, v)]
  | (k, x) :: d' =>
      if String.eqb k key then (k, v) :: d' else (k, x) :: set key v d'
  end.

(** [list(d.keys())] and [list(d.values())] *)
Definition keys (d : t V) : list string := map fst d.
Definition values (d : t V) : list V := map snd d.
End Ops.

End ODict.

(** ** Dynamically typed values and exceptions *)

Inductive pyval : Type :=
| VNone
| VBool (b : bool)
| VInt (z : Z)
| VStr (s : string)
| VList (l : list pyval)
| VDict (d : ODict.t pyval).

Inductive exn : Type :=
| AttributeError (msg : string)
| TypeError (msg : string)
| RuntimeError (msg : string)
| OtherException (msg : string).

(** [str(e)] *)
Definition exn_message (e : exn) : string :=
  match e with
  | AttributeError m | TypeError m | RuntimeError m | OtherException m => m
  end.

Inductive result (A : Type) : Type :=
| Ok (a : A)
| Raise (e : exn).
Arguments Ok {A} a.
Arguments Raise {A} e.

Definition bind {A B : Type} (x : result A) (f : A -> result B) : result B :=
  match x with
  | Ok a => f a
  | Raise e => Raise e
  end.

Notation "x <- e1 ;; e2" := (bind e1 (fun x => e2))
  (at level 61, e1 at next level, right associativity).

Module Py.

(** [type(v).__name__] *)
Definition type_name (v : pyval) : string :=
  match v with
  | VNone => "NoneType"
  | VBool _ => "bool"
  | VInt _ => "int"
  | VStr _ => "str"
  | VList _ => "list"
  | VDict _ => "dict"
  end.

(** [bool(v)] *)
Definition truthy (v : pyval) : bool :=
  match v with
  | VNone => false
  | VBool b => b
  | VInt z => negb (Z.eqb z 0)
  | VStr s => Str.nonempty s
  | VList l => match l with [] => false | _ => true end
  | VDict d => match d with [] => false | _ => true end
  end.

Definition no_attribute {A : Type} (v : pyval) (attr : string) : result A :=
  Raise (AttributeError
    ("'" ++ type_name v ++ "' object has no attribute '" ++ attr ++ "'")).

(** [v.strip()] *)
Definition strip (v : pyval) : result string :=
  match v with
  | VStr s => Ok (Str.strip s)
  | _ => no_attribute v "strip"
  end.

(** [v.lower()] *)
Definition lower (v : pyval) : result string :=
  match v with
  | VStr s => Ok (Str.lower s)
  | _ => no_attribute v "lower"
  end.

(** [v.get(key, default)] *)
Definition get (v : pyval) (key : string) (default : pyval) : result pyval :=
  match v with
  | VDict d => Ok (match ODict.get key d with Some x => x | None => default end)
  | _ => no_attribute v "get"
  end.

(** [isinstance(v, dict)] *)
Definition is_dict (v : pyval) : bool :=
  match v with VDict _ => true | _ => false end.

Fixpoint chars (s : string) : list pyval :=
  match s with
  | EmptyString => []
  | String c s' => VStr (String c EmptyString) :: chars s'
  end.

(** The items a [for] loop over [v] visits. *)
Definition iterate (v : pyval) : result (list pyval) :=
  match v with
  | VList l => Ok l
  | VDict d => Ok (map VStr (ODict.keys d))
  | VStr s => Ok (chars s)
  | _ => Raise (TypeError ("'" ++ type_name v ++ "' object is not iterable"))
  end.

(** [x or y] *)
Definition or_else (x y : pyval) : pyval := if truthy x then x else y.

End Py.

(** ** The normalizer *)

(** The pattern of line 56: start of text, [a] or [an], then
    optionally white space and group 1 (the rest of the line), then the
    end of the text. *)
Definition article_re : Re.regex :=
  Re.Seq Re.Bol                                             (* ^ *)
    (Re.Seq (Re.Alt (Re.Lit "a") (Re.Lit "an"))             (* (?:a|an) *)
      (Re.Seq
        (Re.Opt                                             (* (?: ... )? *)
          (Re.Seq (Re.Plus Re.space)                        (* \s+ *)
                  (Re.Grp (Re.Star Re.dot))))               (* group 1: dot, starred *)
        Re.Eol)).                                           (* $ *)

(** The pattern of line 68: [half] or [quarter], white space, an
    optional [an], [a] or [the], optional white space and group 1 (one
    or more letters or hyphens). *)
Definition fraction_re : Re.regex :=
  Re.Seq (Re.Alt (Re.Lit "half") (Re.Lit "quarter"))        (* (?:half|quarter) *)
    (Re.Seq (Re.Plus Re.space)                              (* \s+ *)
      (Re.Seq
        (Re.Opt (Re.Alt (Re.Lit "an")                       (* (?:an|a|the)? *)
                (Re.Alt (Re.Lit "a") (Re.Lit "the"))))
        (Re.Seq (Re.Star Re.space)                          (* \s, starred *)
          (Re.Grp (Re.Plus Re.letter_or_hyphen))))).        (* ([a-zA-Z\-]+) *)

(** Lines 55-60: ['a'] or ['an'] becomes ['1'].  Returns the new
    [qty_text] and [lqty]. *)
Definition article_rule (qty_text lqty : string) : string * string :=
  match Re.re_match article_re lqty with
  | Some m_a =>
      let rest := m_a in
      let qty_text :=
        "1" ++ (match rest with
                | Some (String c r) => " " ++ String c r
                | _ => ""
                end) in
      (qty_text, Str.lower qty_text)
  | None => (qty_text, lqty)
  end.

(** The fraction chosen on lines 64-67. *)
Definition fraction_of (lqty : string) : string :=
  if Str.contains "half" lqty then "1/2" else "1/4".

(** Lines 62-77: fraction words become a numeric fraction.  Returns the
    new [name] and [qty_text]. *)
Definition fraction_rule (name : pyval) (qty_text lqty : string)
    : result (pyval * string) :=
  if Str.contains "half" lqty || Str.contains "quarter" lqty then
    let frac := fraction_of lqty in
    match Re.re_search fraction_re lqty with
    | Some (Some referred) =>
        lname <- Py.lower name ;;
        if Str.contains "toast" lname then
          lname' <- Py.lower name ;;
          if Str.contains referred lname' then Ok (VStr referred, frac)
          else Ok (name, frac ++ " " ++ referred)
        else Ok (name, frac ++ " " ++ referred)
    | Some None =>
        (* group 1 took no part: [referred] is None *)
        lname <- Py.lower name ;;
        if Str.contains "toast" lname then
          Raise (TypeError
            "'in <string>' requires string as left operand, not NoneType")
        else Ok (name, frac ++ " None")
    | None => Ok (name, frac)
    end
  else Ok (name, qty_text).

Definition _normalize_quantity_and_name (name qty_text : pyval)
    : result (string * string) :=
  qty_text <- Py.strip (Py.or_else qty_text (VStr "")) ;;
  let lqty := Str.lower qty_text in
  let '(qty_text, lqty) := article_rule qty_text lqty in
  nq <- fraction_rule name qty_text lqty ;;
  let '(name, qty_text) := nq in
  name <- Py.strip name ;;
  Ok (name, Str.strip qty_text).

(** ** Extraction backend and environment *)

(** An extractor object: its method [extract_json(text, schema)]. *)
Record extractor : Type := {
  extract_json : pyval -> pyval -> result pyval
}.

(** The [gliner2] library, when it could be imported. *)
Record library : Type := {
  from_api : result extractor;
  from_pretrained : string -> result extractor
}.

(** What the module reads from its surroundings: the imported library
    ([GLiNER2] is None when the import failed) and two environment
    variables. *)
Record environment : Type := {
  GLiNER2 : option library;
  GLINER2_MODEL : option string;
  PIONEER_API_KEY : option string
}.

Definition DEFAULT_MODEL (E : environment) : string :=
  match GLINER2_MODEL E with
  | Some m => m
  | None => "fastino/gliner2-base-v1"
  end.

Definition load_extractor (E : environment) (use_api : bool)
    (model_name : string) : result extractor :=
  if use_api then
    match GLiNER2 E with
    | None => Raise (RuntimeError
        "GLiNER2 library not available; install gliner2 or run without API mode")
    | Some lib => from_api lib
    end
  else
    match GLiNER2 E with
    | None => Raise (RuntimeError
        "GLiNER2 library not available; install gliner2 or set PIONEER_API_KEY to use API mode")
    | Some lib => from_pretrained lib model_name
    end.

(** [bool(os.getenv("PIONEER_API_KEY"))] *)
Definition use_api_of (E : environment) : bool :=
  match PIONEER_API_KEY E with
  | Some k => Str.nonempty k
  | None => false
  end.

(** ** parse_ingredients *)

(** An entry [{"name": ..., "quantity": ...}] of [parsed]. *)
Record ingredient : Type := {
  name : string;
  quantity : string
}.

Definition schema : pyval :=
  VDict [("ingredients",
          VList [VStr "name::str::Ingredient name or food item";
                 VStr "quantity::str::Approximate quantity like 'half an avocado' or '2 slices'"])].

(** A [for] loop whose body may raise. *)
Fixpoint for_each {X S : Type} (body : X -> S -> result S) (items : list X)
    (st : S) : result S :=
  match items with
  | [] => Ok st
  | x :: rest => st' <- body x st ;; for_each body rest st'
  end.

(** Lines 106-109: a dict-valued field is replaced by its ["text"]. *)
Definition unwrap (v : pyval) : result pyval :=
  if Py.is_dict v then Py.get v "text" VNone else Ok v.

(** Lines 104-114: the body of the first loop, on the list [parsed]. *)
Definition extract_body (item : pyval) (parsed : list ingredient)
    : result (list ingredient) :=
  nm <- Py.get item "name" VNone ;;
  qty <- Py.get item "quantity" VNone ;;
  nm <- unwrap nm ;;
  qty <- unwrap qty ;;
  if negb (Py.truthy nm) then Ok parsed
  else
    nm <- Py.strip nm ;;
    nq <- _normalize_quantity_and_name (VStr nm) qty ;;
    Ok (parsed ++ [{| name := fst nq; quantity := snd nq |}])%list.

(** Line 119: the key under which an entry is merged. *)
Definition key_of (p : ingredient) : string := Str.lower (Str.strip (name p)).

(** Lines 119-125: the body of the second loop, on the dict [merged]. *)
Definition merge_body (merged : ODict.t ingredient) (p : ingredient)
    : ODict.t ingredient :=
  let key := key_of p in
  if negb (ODict.mem key merged) then ODict.set key p merged
  else
    match ODict.get key merged with
    | Some stored =>
        if negb (Str.nonempty (quantity stored)) && Str.nonempty (quantity p)
        then ODict.set key p merged
        else merged
    | None => merged
    end.

(** Lines 116-127. *)
Definition merge_duplicates (parsed : list ingredient) : list ingredient :=
  ODict.values (fold_left merge_body parsed []).

Definition parse_ingredients (E : environment) (text : pyval)
    (extractor : option extractor) : result (list ingredient) :=
  extractor <- match extractor with
               | Some x => Ok x
               | None => load_extractor E (use_api_of E) (DEFAULT_MODEL E)
               end ;;
  out <- extract_json extractor text schema ;;
  results <- Py.get out "ingredients" (VList []) ;;
  items <- Py.iterate results ;;
  parsed <- for_each extract_body items [] ;;
  Ok (merge_duplicates parsed).

(** ** The /parse route *)

Record response : Type := {
  status : nat;
  body : pyval
}.

Definition ingredient_json (p : ingredient) : pyval :=
  VDict [("name", VStr (name p)); ("quantity", VStr (quantity p))].

(** [key in v] for a string [key]. *)
Definition py_in (key : string) (v : pyval) : result bool :=
  match v with
  | VDict d => Ok (ODict.mem key d)
  | VList l =>
      Ok (existsb (fun x => match x with VStr s => String.eqb s key | _ => false end) l)
  | VStr s => Ok (Str.contains key s)
  | _ => Raise (TypeError
           ("argument of type '" ++ Py.type_name v ++ "' is not iterable"))
  end.

(** [v[key]] for a string [key]. *)
Definition py_index (v : pyval) (key : string) : result pyval :=
  match v with
  | VDict d =>
      match ODict.get key d with
      | Some x => Ok x
      | None => Raise (OtherException ("'" ++ key ++ "'"))
      end
  | VList _ =>
      Raise (TypeError "list indices must be integers or slices, not str")
  | VStr _ => Raise (TypeError "string indices must be integers, not 'str'")
  | _ => Raise (TypeError
           ("'" ++ Py.type_name v ++ "' object is not subscriptable"))
  end.

(** GET /health *)
Definition health : response :=
  {| status := 200; body := VDict [("status", VStr "ok")] |}.

(** [payload] is the value of [request.get_json(silent=True)]: None when
    the body is not JSON.  A raised exception is one the route does not
    handle. *)
Definition parse_route (E : environment) (payload : pyval) : result response :=
  missing <- (if negb (Py.truthy payload) then Ok true
              else has <- py_in "text" payload ;; Ok (negb has)) ;;
  if missing then
    Ok {| status := 400;
          body := VDict [("error", VStr "missing 'text' in JSON body")] |}
  else
    text <- py_index payload "text" ;;
    match load_extractor E (use_api_of E) (DEFAULT_MODEL E) with
    | Raise e =>
        Ok {| status := 500; body := VDict [("error", VStr (exn_message e))] |}
    | Ok extractor =>
        match parse_ingredients E text (Some extractor) with
        | Raise e =>
            Ok {| status := 500;
                  body := VDict [("error",
                                  VStr ("parse failed: " ++ exn_message e))] |}
        | Ok ingredients =>
            Ok {| status := 200;
                  body := VDict [("ingredients",
                                  VList (map ingredient_json ingredients))] |}
        end
    end.

(** ** Reference notions used in the statements *)

(** The distinct elements of [ks], each at the place of its first
    occurrence. *)
Fixpoint first_seen (ks : list string) : list string :=
  match ks with
  | [] => []
  | k :: ks' => k :: filter (fun k' => negb (String.eqb k' k)) (first_seen ks')
  end.

(** The part of [article_re] after the article. *)
Definition article_tail : Re.regex :=
  Re.Seq (Re.Opt (Re.Seq (Re.Plus Re.space) (Re.Grp (Re.Star Re.dot)))) Re.Eol.

(** A group value that is a word: one or more letters or hyphens. *)
Definition is_word (g : option string) : Prop :=
  exists w, g = Some w /\ w <> "" /\ Str.all Re.letter_or_hyphen w = true.

(** Every entry is stored under its own key. *)
Definition keyed (merged : ODict.t ingredient) : Prop :=
  forall k p, In (k, p) merged -> key_of p = k.

(** Patterns without [^]. *)
Fixpoint bol_free (r : Re.regex) : bool :=
  match r with
  | Re.Bol => false
  | Re.Seq r1 r2 | Re.Alt r1 r2 => bol_free r1 && bol_free r2
  | Re.Opt r' | Re.Grp r' => bol_free r'
  | _ => true
  end.

(** [k'] is [k] seen from [d] positions earlier. *)
Definition shifted {A : Type} (d : nat) (k k' : Re.cont (A := A)) : Prop :=
  forall p s g, k (p + d) s g = k' p s g.

(** Characters at which neither fraction word can start. *)
Definition no_fraction_start (c : ascii) : bool :=
  negb (Ascii.eqb "h" c) && negb (Ascii.eqb "q" c).

(** A noun phrase after an article: text on one line that starts with a
    character other than white space. *)
Definition phrase (np : string) : bool :=
  Str.all Re.dot np &&
  match np with
  | String c _ => negb (Str.isspace c)
  | EmptyString => false
  end.

(** The value and the text of an optional quantity. *)
Definition quantity_value (qty : option string) : pyval :=
  match qty with Some s => VStr s | None => VNone end.

Definition quantity_text (qty : option string) : string :=
  match qty with Some s => s | None => "" end.

(** A field of an extracted item as the loop reads it: None when the
    key is missing, the ["text"] entry when the value is a dict. *)
Definition field (key : string) (d : ODict.t pyval) : pyval :=
  match ODict.get key d with
  | Some (VDict t) =>
      match ODict.get "text" t with Some v => v | None => VNone end
  | Some v => v
  | None => VNone
  end.

(** No extracted name consists of white space only. *)
Definition blank_free (items : list pyval) : Prop :=
  forall d raw,
    In (VDict d) items -> field "name" d = VStr raw -> raw <> "" ->
    Str.strip raw <> "".

(** The JSON body [{"error": msg}]. *)
Definition error_body (msg : string) : pyval := VDict [("error", VStr msg)].

(** ** Sample data for the examples *)

(** An environment without the extraction library. *)
Definition no_library : environment :=
  {| GLiNER2 := None; GLINER2_MODEL := None; PIONEER_API_KEY := None |}.

(** An extractor that answers every text with [out]. *)
Definition constant_extractor (out : pyval) : extractor :=
  {| extract_json := fun _ _ => Ok out |}.

(** An extractor whose call raises [e]. *)
Definition failing_extractor (e : exn) : extractor :=
  {| extract_json := fun _ _ => Raise e |}.

(** An environment whose library loads [x] in both modes. *)
Definition with_extractor (x : extractor) : environment :=
  {| GLiNER2 := Some {| from_api := Ok x; from_pretrained := fun _ => Ok x |};
     GLINER2_MODEL := None; PIONEER_API_KEY := None |}.

Definition raw_item (nm qty : pyval) : pyval :=
  VDict [("name", nm); ("quantity", qty)].

Definition tomato_out : pyval :=
  VDict [("ingredients",
          VList [raw_item (VStr "Tomato") (VStr "");
                 raw_item (VStr "tomato") (VStr "2 slices")])].

Definition blank_name_out : pyval :=
  VDict [("ingredients", VList [raw_item (VStr " ") (VStr "1")])].

(** ** Further notions used in the statements *)

Section FurtherNotions.
Import Str Re.

(** The quantity the normalizer returns for string inputs, written over
    the trimmed, lower-cased quantity [lqty]. *)
Definition fraction_word (lqty : string) : bool :=
  contains "half" lqty || contains "quarter" lqty.

(** [p] is stored under [k] and states a quantity. *)
Definition explicit_for (k : string) (p : ingredient) : bool :=
  String.eqb (key_of p) k && Str.nonempty (quantity p).

(** The entry the merge keeps for key [k]: the first one that states a
    quantity, or else the first one. *)
Definition chosen (k : string) (parsed : list ingredient) : option ingredient :=
  match find (explicit_for k) parsed with
  | Some p => Some p
  | None => find (fun p => String.eqb (key_of p) k) parsed
  end.

(** [p] is what the loop body makes of one dict item of [items] whose
    name field is a non-empty string. *)
Definition made_from (items : list pyval) (p : ingredient) : Prop :=
  exists d raw,
    In (VDict d) items /\ field "name" d = VStr raw /\ raw <> "" /\
    _normalize_quantity_and_name (VStr (Str.strip raw)) (field "quantity" d)
    = Ok (name p, quantity p).

(** An item the loop body cannot handle: not a dict, or a dict whose
    name field is true-ish without being a string. *)
Definition malformed (item : pyval) : Prop :=
  match item with
  | VDict d =>
      Py.truthy (field "name" d) = true /\ forall s, field "name" d <> VStr s
  | _ => True
  end.

(** What the extraction backend returned for [text], down to the items
    the first loop visits. *)
Definition extracted (x : extractor) (text : pyval) (items : list pyval) : Prop :=
  exists out results,
    extract_json x text schema = Ok out /\
    Py.get out "ingredients" (VList []) = Ok results /\
    Py.iterate results = Ok items.

(** An item of the shape the schema asks for: a dict whose name and
    quantity fields (unwrapped) are strings or None. *)
Definition string_or_none (v : pyval) : Prop := v = VNone \/ exists s, v = VStr s.

Definition well_formed (item : pyval) : Prop :=
  exists d, item = VDict d /\
    string_or_none (field "name" d) /\ string_or_none (field "quantity" d).

(** The JSON body [{"ingredients": [...]}]. *)
Definition ingredients_body (l : list ingredient) : pyval :=
  VDict [("ingredients", VList (map ingredient_json l))].
(** A library that works only locally, and an environment in which both
    variables are set to the empty text. *)
Definition local_only : library :=
  {| from_api := Raise (OtherException "no network");
     from_pretrained := fun _ => Ok (constant_extractor VNone) |}.

Definition empty_key_env : environment :=
  {| GLiNER2 := Some local_only; GLINER2_MODEL := Some "";
     PIONEER_API_KEY := Some "" |}.

(** The texts the article pattern is written for: "a" or "an", alone or
    followed by white space and more text on the same line. *)
Definition article_form (s : string) : Prop :=
  exists art, (art = "a" \/ art = "an") /\
    (s = art \/
     exists ws r,
       ws <> "" /\ all isspace ws = true /\ r <> "" /\ all dot r = true /\
       s = art ++ ws ++ r).

End FurtherNotions.

(** * Properties *)

(** ** The model on sample inputs *)

Example fraction_re_samples :
  map (Re.re_search fraction_re)
    ["half a slice of toast"; "half apple"; "half another"; "quarter  the cup";
     "halfway"; "a quarter and a half"]
  = [Some (Some "slice"); Some (Some "pple"); Some (Some "other");
     Some (Some "cup"); None; Some (Some "d")].
Proof. reflexivity. Qed.

Example article_re_samples :
  map (Re.re_match article_re) ["a"; "an"; "a slice"; "an apple"; "a  x y"; "ab"; "apple"]
  = [Some None; Some None; Some (Some "slice"); Some (Some "apple");
     Some (Some "x y"); None; None].
Proof. reflexivity. Qed.

Example first_seen_sample :
  first_seen ["b"; "a"; "b"; "c"; "a"] = ["b"; "a"; "c"].
Proof. reflexivity. Qed.

Example strip_lower_samples :
  Str.strip "  Two  Cups " = "Two  Cups" /\ Str.lower "Two Cups" = "two cups" /\
  Str.contains "half" "one half" = true /\ Str.contains "" "" = true.
Proof. repeat split. Qed.

Example normalize_non_string_quantity :
  _normalize_quantity_and_name (VStr "egg") (VInt 2) =
  Raise (AttributeError "'int' object has no attribute 'strip'").
Proof. reflexivity. Qed.

(** A replaced entry keeps the place of the entry it replaces. *)
Example merge_keeps_place :
  merge_duplicates [ {| name := "Basil"; quantity := "" |};
                     {| name := "oil"; quantity := "" |};
                     {| name := "basil"; quantity := "2 leaves" |};
                     {| name := "BASIL"; quantity := "3 leaves" |} ]
  = [ {| name := "basil"; quantity := "2 leaves" |};
      {| name := "oil"; quantity := "" |} ].
Proof. reflexivity. Qed.

(** A body that is JSON but neither an object, a list nor a string makes
    the membership test of line 138 raise; the route does not handle
    that exception. *)
Example parse_route_number_body :
  parse_route no_library (VInt 5) =
  Raise (TypeError "argument of type 'int' is not iterable").
Proof. reflexivity. Qed.

(** ** Ordered dictionaries *)

Module ODictFacts.
Import ODict.

Section Facts.
Context {V : Type}.
Implicit Types (d : ODict.t V) (k : string) (v : V).

Lemma get_set d k k' v :
  get k' (set k v d) = if String.eqb k' k then Some v else get k' d.
Proof.
  induction d as [|[k0 x] d IH]; simpl.
  - rewrite String.eqb_sym. reflexivity.
  - destruct (String.eqb k0 k) eqn:Hk; simpl.
    + apply String.eqb_eq in Hk; subst k0.
      destruct (String.eqb k k') eqn:Hk'.
      * apply String.eqb_eq in Hk'; subst k'. rewrite String.eqb_refl. reflexivity.
      * rewrite String.eqb_sym, Hk'. reflexivity.
    + destruct (String.eqb k0 k') eqn:Hk'.
      * apply String.eqb_eq in Hk'; subst k0.
        rewrite Hk. reflexivity.
      * exact IH.
Qed.

Lemma mem_set d k k' v :
  mem k' (set k v d) = String.eqb k' k || mem k' d.
Proof.
  unfold mem. rewrite get_set.
  destruct (String.eqb k' k); reflexivity.
Qed.

Lemma mem_keys d k : mem k d = true <-> In k (keys d).
Proof.
  unfold mem, keys.
  induction d as [|[k0 x] d IH]; simpl.
  - split; [discriminate | contradiction].
  - destruct (String.eqb k0 k) eqn:Hk.
    + apply String.eqb_eq in Hk. split; auto.
    + apply String.eqb_neq in Hk. rewrite IH. split; [auto | intros [?|?]; [contradiction | assumption]].
Qed.

(** Assigning to a key keeps the order of the keys already there and
    puts a new key last. *)
Lemma keys_set d k v :
  keys (set k v d) = if mem k d then keys d else (keys d ++ [k])%list.
Proof.
  unfold mem, keys.
  induction d as [|[k0 x] d IH]; simpl; [reflexivity|].
  destruct (String.eqb k0 k) eqn:Hk; simpl; [reflexivity|].
  rewrite IH. destruct (get k d); reflexivity.
Qed.

Lemma NoDup_keys_set d k v : NoDup (keys d) -> NoDup (keys (set k v d)).
Proof.
  intros Hd. rewrite keys_set.
  destruct (mem k d) eqn:Hm; [assumption|].
  apply NoDup_app; [assumption | repeat constructor; intros [] | ].
  intros x Hx [<-|[]]. apply mem_keys in Hx. congruence.
Qed.

Lemma In_set d k v kv :
  In kv (set k v d) -> kv = (k, v) \/ In kv d.
Proof.
  induction d as [|[k0 x] d IH]; simpl.
  - intros [<-|[]]; auto.
  - destruct (String.eqb k0 k) eqn:Hk; simpl.
    + apply String.eqb_eq in Hk; subst k0. intros [<-|H]; auto.
    + intros [<-|H]; auto. destruct (IH H); auto.
Qed.
End Facts.

End ODictFacts.

(** ** The duplicate merge *)

Module MergeFacts.
Import ODict ODictFacts.

(** What one round of the merge loop leaves under each key. *)
Lemma get_merge_body merged p k :
  get k (merge_body merged p) =
  if String.eqb k (key_of p) then
    match get k merged with
    | None => Some p
    | Some stored =>
        if String.eqb (quantity stored) "" && negb (String.eqb (quantity p) "")
        then Some p else Some stored
    end
  else get k merged.
Proof.
  unfold merge_body, mem.
  destruct (String.eqb k (key_of p)) eqn:Hk.
  - apply String.eqb_eq in Hk; subst k.
    destruct (get (key_of p) merged) as [stored|] eqn:Hg; simpl.
    + destruct (quantity stored) as [|c q], (quantity p) as [|c' q']; simpl;
        rewrite ?get_set, ?String.eqb_refl; auto.
    + rewrite get_set, String.eqb_refl. reflexivity.
  - destruct (get (key_of p) merged) as [stored|] eqn:Hg; simpl.
    + destruct (negb (Str.nonempty (quantity stored)) && Str.nonempty (quantity p));
        rewrite ?get_set, ?Hk; reflexivity.
    + rewrite get_set, Hk. reflexivity.
Qed.

Lemma mem_merge_body merged p k :
  mem k (merge_body merged p) = String.eqb k (key_of p) || mem k merged.
Proof.
  unfold mem at 1. rewrite get_merge_body. unfold mem.
  destruct (String.eqb k (key_of p)); simpl; [|reflexivity].
  destruct (get k merged) as [stored|]; [|reflexivity].
  destruct (String.eqb (quantity stored) "" && negb (String.eqb (quantity p) ""));
    reflexivity.
Qed.

(** The loop never moves a key: a replaced entry keeps its place and a
    new key goes last. *)
Lemma keys_merge_body merged p :
  keys (merge_body merged p) =
  if mem (key_of p) merged then keys merged
  else (keys merged ++ [key_of p])%list.
Proof.
  unfold merge_body.
  destruct (mem (key_of p) merged) eqn:Hm; simpl.
  - unfold mem in Hm.
    destruct (get (key_of p) merged) as [stored|] eqn:Hg; [|discriminate].
    destruct (negb (Str.nonempty (quantity stored)) && Str.nonempty (quantity p));
      [|reflexivity].
    rewrite keys_set. unfold mem. rewrite Hg. reflexivity.
  - rewrite keys_set, Hm. reflexivity.
Qed.

Lemma keyed_merge_body merged p : keyed merged -> keyed (merge_body merged p).
Proof.
  intros Hd k q. unfold merge_body.
  destruct (negb (mem (key_of p) merged)).
  - intros H. apply In_set in H. destruct H as [[= -> ->]|H]; auto.
  - destruct (get (key_of p) merged) as [stored|]; [|apply Hd].
    destruct (negb (Str.nonempty (quantity stored)) && Str.nonempty (quantity p));
      [|apply Hd].
    intros H. apply In_set in H. destruct H as [[= -> ->]|H]; auto.
Qed.

Lemma keyed_fold parsed : forall merged,
  keyed merged -> keyed (fold_left merge_body parsed merged).
Proof.
  induction parsed as [|p parsed IH]; simpl; intros merged Hd; [assumption|].
  apply IH, keyed_merge_body, Hd.
Qed.

Lemma keyed_values merged :
  keyed merged -> map key_of (values merged) = keys merged.
Proof.
  unfold values, keys.
  induction merged as [|[k p] d IH]; simpl; intros Hd; [reflexivity|].
  rewrite (Hd k p) by (left; reflexivity).
  f_equal. apply IH. intros k' p' H. apply Hd. right. exact H.
Qed.

Lemma NoDup_keys_fold parsed : forall merged,
  NoDup (keys merged) -> NoDup (keys (fold_left merge_body parsed merged)).
Proof.
  induction parsed as [|p parsed IH]; simpl; intros merged Hd; [assumption|].
  apply IH. rewrite keys_merge_body.
  destruct (mem (key_of p) merged) eqn:Hm; [assumption|].
  apply NoDup_app; [assumption | repeat constructor; intros [] | ].
  intros x Hx [<-|[]]. apply mem_keys in Hx. congruence.
Qed.

Lemma filter_filter {X : Type} (f g : X -> bool) (l : list X) :
  filter f (filter g l) = filter (fun x => g x && f x) l.
Proof.
  induction l as [|x l IH]; simpl; [reflexivity|].
  destruct (g x); simpl; [destruct (f x); simpl; congruence | exact IH].
Qed.

(** The keys after the loop: those already there, then the new ones in
    the order of their first occurrence. *)
Lemma keys_fold parsed : forall merged,
  keys (fold_left merge_body parsed merged) =
  (keys merged ++
   filter (fun k => negb (mem k merged)) (first_seen (map key_of parsed)))%list.
Proof.
  induction parsed as [|p parsed IH]; simpl; intros merged.
  - rewrite app_nil_r. reflexivity.
  - rewrite IH, keys_merge_body, filter_filter.
    destruct (mem (key_of p) merged) eqn:Hm; simpl.
    + f_equal. apply filter_ext. intros k. rewrite mem_merge_body.
      destruct (String.eqb k (key_of p)); reflexivity.
    + rewrite <- app_assoc. simpl. do 2 f_equal.
      apply filter_ext. intros k. rewrite mem_merge_body.
      destruct (String.eqb k (key_of p)); reflexivity.
Qed.

Lemma keyed_nil : keyed [].
Proof. intros k p []. Qed.

Lemma keys_merge_duplicates parsed :
  map key_of (merge_duplicates parsed) = keys (fold_left merge_body parsed []).
Proof. apply keyed_values, keyed_fold, keyed_nil. Qed.

End MergeFacts.

Section MergeClaims.
Import ODict ODictFacts MergeFacts.

Lemma first_seen_In ks k : In k (first_seen ks) <-> In k ks.
Proof.
  induction ks as [|k0 ks IH]; simpl; [tauto|].
  rewrite filter_In, IH, negb_true_iff, String.eqb_neq.
  destruct (string_dec k0 k); [subst|]; intuition congruence.
Qed.

Lemma first_seen_NoDup ks : NoDup (first_seen ks).
Proof.
  induction ks as [|k0 ks IH]; simpl; constructor.
  - rewrite filter_In, String.eqb_refl. intros [_ [=]].
  - apply NoDup_filter, IH.
Qed.

(** C4. The merge folds the normalized entries from left to right under
    the key [lower (strip name)].  One round of the fold leaves every
    other key alone; under the entry's own key it stores the entry when
    the key is new, and otherwise replaces the stored entry exactly when
    the stored quantity is empty and the new quantity is not.  ("Tomato",
    "") followed by ("tomato", "2 slices") gives the single entry
    ("tomato", "2 slices"). *)
Theorem merge_duplicates_fold_rule :
  (forall parsed,
     merge_duplicates parsed = values (fold_left merge_body parsed [])) /\
  (forall merged p k,
     get k (merge_body merged p) =
     if String.eqb k (Str.lower (Str.strip (name p))) then
       match get k merged with
       | None => Some p
       | Some stored =>
           if String.eqb (quantity stored) "" && negb (String.eqb (quantity p) "")
           then Some p else Some stored
       end
     else get k merged) /\
  merge_duplicates [ {| name := "Tomato"; quantity := "" |};
                     {| name := "tomato"; quantity := "2 slices" |} ]
  = [ {| name := "tomato"; quantity := "2 slices" |} ].
Proof.
  split; [reflexivity | split; [|reflexivity]].
  intros merged p k. apply get_merge_body.
Qed.

(** C5. The merged list is in the order in which the distinct keys
    (lower-cased trimmed names) were first seen, whether or not a later
    entry replaced the stored one. *)
Theorem merge_duplicates_first_seen_order (parsed : list ingredient) :
  map key_of (merge_duplicates parsed) = first_seen (map key_of parsed).
Proof.
  rewrite keys_merge_duplicates, keys_fold. simpl.
  induction (first_seen (map key_of parsed)) as [|k ks IH]; simpl; congruence.
Qed.

Lemma parse_ingredients_merged E text x l :
  parse_ingredients E text x = Ok l ->
  exists parsed, l = merge_duplicates parsed.
Proof.
  unfold parse_ingredients, bind. intros H.
  repeat match type of H with
         | match ?c with _ => _ end = _ => destruct c; try discriminate H
         end.
  injection H as <-. eexists. reflexivity.
Qed.

(** C9. Whatever the backend returned, no two entries of the list that
    [parse_ingredients] returns have the same name after trimming and
    lower-casing. *)
Theorem parse_ingredients_distinct_names E text x l :
  parse_ingredients E text x = Ok l ->
  NoDup (map key_of l).
Proof.
  intros H. apply parse_ingredients_merged in H. destruct H as [parsed ->].
  rewrite keys_merge_duplicates. apply NoDup_keys_fold. constructor.
Qed.

Lemma parse_ingredients_distinct_names_witness :
  NoDup (map key_of [ {| name := "tomato"; quantity := "2 slices" |} ]).
Proof.
  apply (parse_ingredients_distinct_names no_library (VStr "tomato")
           (Some (constant_extractor tomato_out))).
  reflexivity.
Defined.

End MergeClaims.

(** ** Strings *)

Module StrFacts.
Import Str.

Ltac by_cases_on_char c :=
  destruct c as [[] [] [] [] [] [] [] []]; try reflexivity; try discriminate.

Lemma isspace_lower_char c : isspace (lower_char c) = isspace c.
Proof. by_cases_on_char c. Qed.

Lemma lower_char_idem c : lower_char (lower_char c) = lower_char c.
Proof. by_cases_on_char c. Qed.

Lemma letter_not_space c : Re.letter_or_hyphen c = true -> isspace c = false.
Proof. by_cases_on_char c. Qed.

Lemma append_nil_r s : s ++ "" = s.
Proof. induction s; simpl; congruence. Qed.

Lemma append_assoc a b c : (a ++ b) ++ c = a ++ b ++ c.
Proof. induction a; simpl; congruence. Qed.

Lemma length_append a b : length (a ++ b) = length a + length b.
Proof. induction a; simpl; congruence. Qed.

Lemma append_inv_length a a' b b' :
  a ++ b = a' ++ b' -> length a = length a' -> a = a' /\ b = b'.
Proof.
  revert a'. induction a as [|c a IH]; intros [|c' a']; simpl; try discriminate.
  - auto.
  - intros [= -> H] [= Hl]. destruct (IH _ H Hl) as [-> ->]. auto.
Qed.

Lemma lower_append a b : lower (a ++ b) = lower a ++ lower b.
Proof. induction a; simpl; congruence. Qed.

Lemma lower_idem s : lower (lower s) = lower s.
Proof. induction s; simpl; [|rewrite lower_char_idem]; congruence. Qed.

Lemma length_lower s : length (lower s) = length s.
Proof. induction s; simpl; congruence. Qed.

(** A part of a lower-cased text is lower-cased. *)
Lemma lower_part t a b : lower t = a ++ b -> lower a = a /\ lower b = b.
Proof.
  intros H. apply append_inv_length.
  - rewrite <- lower_append, <- H. apply lower_idem.
  - apply length_lower.
Qed.

Lemma last_some c s : last (String c s) <> None.
Proof.
  revert c. induction s as [|a s IH]; intros c; [discriminate|].
  change (last (String c (String a s))) with (last (String a s)). apply IH.
Qed.

Lemma last_cons c s :
  last (String c s) = match last s with Some x => Some x | None => Some c end.
Proof.
  destruct s as [|a s]; [reflexivity|].
  change (last (String c (String a s))) with (last (String a s)).
  destruct (last (String a s)) eqn:H; [reflexivity|].
  exfalso. exact (last_some _ _ H).
Qed.

Lemma last_none s : last s = None -> s = "".
Proof.
  induction s as [|c s IH]; [reflexivity|].
  rewrite last_cons. destruct (last s); discriminate.
Qed.

Lemma last_append a b :
  last (a ++ b) = match last b with Some x => Some x | None => last a end.
Proof.
  induction a as [|c a IH].
  - simpl. destruct (last b); reflexivity.
  - change (String c a ++ b) with (String c (a ++ b)).
    rewrite !last_cons, IH. destruct (last b), (last a); reflexivity.
Qed.

Lemma last_lower s : last (lower s) = option_map lower_char (last s).
Proof.
  induction s as [|c s IH]; [reflexivity|].
  change (lower (String c s)) with (String (lower_char c) (lower s)).
  rewrite !last_cons, IH. destruct (last s); reflexivity.
Qed.

Lemma last_all p s c : all p s = true -> last s = Some c -> p c = true.
Proof.
  induction s as [|c0 s IH]; [discriminate|].
  simpl all. rewrite last_cons. intros H%andb_prop Hl. destruct H as [H0 Hs].
  destruct (last s); [apply IH; congruence | congruence].
Qed.

(** The last character left by [rstrip] is not white space. *)
Lemma last_rstrip s c : last (rstrip s) = Some c -> isspace c = false.
Proof.
  induction s as [|c0 s IH]; simpl; [discriminate|].
  destruct (rstrip s) as [|c1 r] eqn:Hr.
  - destruct (isspace c0) eqn:Hc; simpl; congruence.
  - rewrite last_cons.
    destruct (last (String c1 r)) eqn:Hl; [exact IH | exfalso; exact (last_some _ _ Hl)].
Qed.

Lemma rstrip_id s :
  (forall c, last s = Some c -> isspace c = false) -> rstrip s = s.
Proof.
  induction s as [|c0 s IH]; [reflexivity|].
  rewrite last_cons. intros H. simpl.
  destruct (last s) as [x|] eqn:Hl.
  - rewrite IH by exact H. destruct s; [discriminate | reflexivity].
  - apply last_none in Hl. subst s. simpl. rewrite H; reflexivity.
Qed.

Lemma lstrip_id s :
  (forall c, head s = Some c -> isspace c = false) -> lstrip s = s.
Proof. destruct s as [|c s]; simpl; [reflexivity|]. intros H. rewrite H; reflexivity. Qed.

Lemma head_lstrip s c : head (lstrip s) = Some c -> isspace c = false.
Proof.
  induction s as [|c0 s IH]; simpl; [discriminate|].
  destruct (isspace c0) eqn:Hc; [exact IH | simpl; congruence].
Qed.

Lemma head_rstrip s c : head (rstrip s) = Some c -> head s = Some c.
Proof.
  destruct s as [|c0 s]; simpl; [discriminate|].
  destruct (rstrip s); [destruct (isspace c0); [discriminate|] |]; auto.
Qed.

Lemma head_strip s c : head (strip s) = Some c -> isspace c = false.
Proof. intros H. apply head_rstrip in H. apply head_lstrip in H. exact H. Qed.

Lemma last_strip s c : last (strip s) = Some c -> isspace c = false.
Proof. apply last_rstrip. Qed.

(** A text that neither starts nor ends with white space is its own
    trimmed form. *)
Lemma strip_id s :
  (forall c, head s = Some c -> isspace c = false) ->
  (forall c, last s = Some c -> isspace c = false) ->
  strip s = s.
Proof. intros Hh Hl. unfold strip. rewrite lstrip_id by exact Hh. apply rstrip_id, Hl. Qed.

Lemma strip_idem s : strip (strip s) = strip s.
Proof. apply strip_id; [apply head_strip | apply last_strip]. Qed.

Lemma head_all p s c : all p s = true -> head s = Some c -> p c = true.
Proof.
  destruct s; simpl; [discriminate|]. intros H%andb_prop [= <-]. tauto.
Qed.

(** Letters and hyphens are never trimmed away. *)
Lemma strip_word w : all Re.letter_or_hyphen w = true -> strip w = w.
Proof.
  intros H. apply strip_id; intros c Hc; apply letter_not_space.
  - eapply head_all; eassumption.
  - eapply last_all; eassumption.
Qed.

Lemma take_length s : take (length s) s = s.
Proof. induction s; simpl; congruence. Qed.

Lemma take_append s t : take (length s) (s ++ t) = s.
Proof. induction s; simpl; [destruct t; reflexivity | congruence]. Qed.

End StrFacts.

(** ** The matcher *)

Module ReFacts.
Import Str StrFacts Re.

Section Star.
Context {A : Type}.
Implicit Types (k : cont (A := A)) (p : ascii -> bool).

(** Greedy repetition takes the whole run of class characters when
    the continuation accepts what follows it. *)
Lemma star_k_greedy p k w rest g res : forall pos,
  all p w = true ->
  (forall c, head rest = Some c -> p c = false) ->
  k (pos + length w) rest g = Some res ->
  star_k p k pos (w ++ rest) g = Some res.
Proof.
  induction w as [|c w IH]; simpl; intros pos Hw Hr Hk.
  - rewrite Nat.add_0_r in Hk.
    destruct rest as [|c r]; simpl; [exact Hk|].
    rewrite (Hr c eq_refl). exact Hk.
  - apply andb_prop in Hw. destruct Hw as [Hc Hw]. rewrite Hc.
    rewrite (IH (S pos) Hw Hr); [reflexivity|].
    rewrite <- Hk. f_equal. lia.
Qed.

(** Whatever repetition returns comes from the continuation, called
    after a run of class characters. *)
Lemma star_k_inv p k s g : forall pos res,
  star_k p k pos s g = Some res ->
  exists w rest,
    s = w ++ rest /\ all p w = true /\ k (pos + length w) rest g = Some res.
Proof.
  induction s as [|c s IH]; simpl; intros pos res H.
  - exists "", "". rewrite Nat.add_0_r. auto.
  - destruct (p c) eqn:Hc.
    + destruct (star_k p k (S pos) s g) as [x|] eqn:Hs; simpl in H.
      * apply IH in Hs. destruct Hs as (w & rest & -> & Hw & Hk).
        exists (String c w), rest. simpl. rewrite Hc, Hw.
        repeat split. rewrite <- H, <- Hk. f_equal. lia.
      * exists "", (String c s). rewrite Nat.add_0_r. auto.
    + exists "", (String c s). rewrite Nat.add_0_r. auto.
Qed.

Lemma lit_k_inv l k : forall pos s g res,
  lit_k l k pos s g = Some res ->
  exists rest, s = l ++ rest /\ k (pos + length l) rest g = Some res.
Proof.
  induction l as [|a l IH]; simpl; intros pos s g res H.
  - exists s. rewrite Nat.add_0_r. auto.
  - destruct s as [|c s]; [discriminate|].
    destruct (Ascii.eqb a c) eqn:Hac; [|discriminate].
    apply Ascii.eqb_eq in Hac. subst c.
    apply IH in H. destruct H as (rest & -> & Hk).
    exists rest. split; [reflexivity|]. rewrite <- Hk. f_equal. lia.
Qed.

(** A property of everything the continuation returns is a property
    of everything the matcher returns. *)
Lemma run_post (P : A -> Prop) r : forall k,
  (forall pos s g res, k pos s g = Some res -> P res) ->
  forall pos s g res, run r k pos s g = Some res -> P res.
Proof.
  induction r as [| |l|p|p|r1 IH1 r2 IH2|r1 IH1 r2 IH2|r IH|r IH];
    simpl; intros k Hk pos s g res H.
  - destruct (Nat.eqb pos 0); [eauto | discriminate].
  - destruct (at_end s); [eauto | discriminate].
  - apply lit_k_inv in H. destruct H as (rest & _ & H). eauto.
  - destruct s as [|c s]; [discriminate|].
    destruct (p c); [eauto | discriminate].
  - apply star_k_inv in H. destruct H as (w & rest & _ & _ & H). eauto.
  - eapply IH1; [|exact H]. intros pos' s' g' res'. apply IH2, Hk.
  - unfold orelse in H.
    destruct (run r1 k pos s g) eqn:H1; [injection H as <-; eauto | eauto].
  - unfold orelse in H.
    destruct (run r k pos s g) eqn:H1; [injection H as <-; eauto | eauto].
  - eapply IH; [|exact H]. intros pos' s' g' res'. simpl. apply Hk.
Qed.
End Star.

Lemma search_from_post (P : option string -> Prop) r :
  (forall pos s res, run r matched pos s None = Some res -> P res) ->
  forall s pos res, search_from r pos s = Some res -> P res.
Proof.
  intros Hr. induction s as [|c s IH]; simpl; intros pos res H; unfold orelse in H.
  - destruct (run r matched pos "" None) eqn:H1; [injection H as <-; eauto | discriminate].
  - destruct (run r matched pos (String c s) None) eqn:H1;
      [injection H as <-; eauto | eauto].
Qed.

Lemma group_plus_word p pos s g res :
  run (Grp (Plus p)) matched pos s g = Some res ->
  exists w, res = Some w /\ w <> "" /\ all p w = true.
Proof.
  unfold Plus. cbn [run]. destruct s as [|c s]; [discriminate|].
  destruct (p c) eqn:Hc; [|discriminate].
  intros H. apply star_k_inv in H. destruct H as (w & rest & -> & Hw & H).
  unfold matched in H.
  replace (S pos + length w - pos) with (S (length w)) in H by lia.
  injection H as <-. exists (String c w).
  split; [|split; [discriminate | simpl; rewrite Hc, Hw; reflexivity]].
  cbn [take]. rewrite take_append. reflexivity.
Qed.

Lemma run_seq_post {A} (P : A -> Prop) r1 r2 k :
  (forall pos s g res, run r2 k pos s g = Some res -> P res) ->
  forall pos s g res, run (Seq r1 r2) k pos s g = Some res -> P res.
Proof. intros H. exact (run_post P r1 (run r2 k) H). Qed.

Lemma fraction_group s g :
  re_search fraction_re s = Some g -> is_word g.
Proof.
  unfold re_search. apply search_from_post. clear s g.
  intros pos s res. unfold fraction_re. revert res. generalize (@None string). revert pos s.
  do 4 apply run_seq_post.
  intros pos s g res. apply group_plus_word.
Qed.

Lemma lit_k_append {A} l (k : cont (A := A)) rest g : forall pos,
  lit_k l k pos (l ++ rest) g = k (pos + length l) rest g.
Proof.
  induction l as [|a l IH]; simpl; intros pos.
  - rewrite Nat.add_0_r. reflexivity.
  - rewrite Ascii.eqb_refl, IH. f_equal. lia.
Qed.

Lemma article_re_alt s :
  re_match article_re s =
  orelse (lit_k "a" (run article_tail matched) 0 s None)
         (lit_k "an" (run article_tail matched) 0 s None).
Proof. reflexivity. Qed.

Lemma article_tail_phrase ws np pos g :
  ws <> "" -> all isspace ws = true ->
  all dot np = true ->
  (forall c, head np = Some c -> isspace c = false) ->
  run article_tail matched pos (ws ++ np) g = Some (Some np).
Proof.
  intros Hne Hws Hnp Hhd.
  destruct ws as [|c ws]; [contradiction|].
  simpl in Hws. apply andb_prop in Hws. destruct Hws as [Hc Hws].
  unfold article_tail, Plus. cbn [run append]. unfold space at 1. rewrite Hc.
  rewrite star_k_greedy with (res := Some np); [reflexivity | exact Hws | exact Hhd |].
  rewrite <- (append_nil_r np) at 1.
  apply star_k_greedy; [exact Hnp | discriminate |].
  cbn beta. cbn [run at_end]. unfold matched.
  match goal with
  | |- context [take (?a + ?b - ?a) _] => replace (a + b - a) with b by lia
  end.
  rewrite take_length. reflexivity.
Qed.

Lemma article_tail_letter c rest pos g :
  isspace c = false -> rest <> "" ->
  run article_tail matched pos (String c rest) g = None.
Proof.
  intros Hc Hne. destruct rest as [|c' rest]; [contradiction|].
  unfold article_tail, Plus. cbn [run]. unfold space at 1. rewrite Hc. reflexivity.
Qed.

Lemma article_tail_end pos g : run article_tail matched pos "" g = Some g.
Proof. reflexivity. Qed.

Lemma article_match_phrase art ws np :
  art = "a" \/ art = "an" ->
  ws <> "" -> all isspace ws = true ->
  all dot np = true ->
  (forall c, head np = Some c -> isspace c = false) ->
  re_match article_re (art ++ ws ++ np) = Some (Some np).
Proof.
  intros Hart Hne Hws Hnp Hhd. rewrite article_re_alt.
  destruct Hart as [-> | ->].
  - rewrite lit_k_append, article_tail_phrase by assumption. reflexivity.
  - change ("an" ++ ws ++ np) with ("a" ++ String "n" (ws ++ np)) at 1.
    rewrite (lit_k_append "a"), article_tail_letter.
    + rewrite lit_k_append, article_tail_phrase by assumption. reflexivity.
    + reflexivity.
    + destruct ws; [contradiction | discriminate].
Qed.

Lemma article_match_bare art :
  art = "a" \/ art = "an" -> re_match article_re art = Some None.
Proof. intros [-> | ->]; reflexivity. Qed.

End ReFacts.

(** ** The normalizer *)

Module NormalizeFacts.
Import Str StrFacts Re ReFacts.

Lemma strip_quantity qty :
  Py.strip (Py.or_else (quantity_value qty) (VStr "")) =
  Ok (strip (quantity_text qty)).
Proof. destruct qty as [[|c s]|]; reflexivity. Qed.

(** The normalizer on a string name and an optional string quantity:
    trim, then the article rule, then the fraction rule, then trim. *)
Lemma normalize_steps nm qty :
  _normalize_quantity_and_name (VStr nm) (quantity_value qty) =
  let t := strip (quantity_text qty) in
  nq <- fraction_rule (VStr nm) (fst (article_rule t (lower t)))
                      (snd (article_rule t (lower t))) ;;
  n <- Py.strip (fst nq) ;;
  Ok (n, strip (snd nq)).
Proof.
  unfold _normalize_quantity_and_name. rewrite strip_quantity.
  cbn [bind]. cbv zeta.
  destruct (article_rule _ _) as [qt lq]. cbn [fst snd].
  destruct (fraction_rule (VStr nm) qt lq) as [[n q]|e]; reflexivity.
Qed.

Lemma fraction_of_cases lqty : fraction_of lqty = "1/2" \/ fraction_of lqty = "1/4".
Proof. unfold fraction_of. destruct (contains "half" lqty); auto. Qed.

(** A fraction followed by a word needs no trimming. *)
Lemma strip_fraction_word frac w :
  frac = "1/2" \/ frac = "1/4" ->
  w <> "" -> all letter_or_hyphen w = true ->
  strip (frac ++ " " ++ w) = frac ++ " " ++ w.
Proof.
  intros Hf Hne Hw. apply strip_id.
  - destruct Hf as [-> | ->]; intros c [= <-]; reflexivity.
  - intros c. rewrite !last_append.
    destruct (last w) as [x|] eqn:Hl.
    + intros [= <-]. apply letter_not_space. eapply last_all; eassumption.
    + apply last_none in Hl. contradiction.
Qed.

Lemma strip_fraction lqty : strip (fraction_of lqty) = fraction_of lqty.
Proof. destruct (fraction_of_cases lqty) as [-> | ->]; reflexivity. Qed.

(** The text after the numeral decides whether a fraction word is
    present. *)
Lemma contains_half_after_one np :
  contains "half" ("1 " ++ np) = contains "half" np.
Proof. reflexivity. Qed.

Lemma contains_quarter_after_one np :
  contains "quarter" ("1 " ++ np) = contains "quarter" np.
Proof. reflexivity. Qed.

End NormalizeFacts.

(** ** The article rule and the fraction words *)

Module ArticleFacts.
Import Str StrFacts Re ReFacts NormalizeFacts.

Lemma at_end_trimmed s :
  at_end s = true -> s = "" \/ s = String "010" "".
Proof.
  destruct s as [|c [|c' s]]; simpl; auto; [|discriminate].
  intros H. apply Ascii.eqb_eq in H. subst. auto.
Qed.

Lemma orelse_some {A} (x y : option A) r :
  orelse x y = Some r -> x = Some r \/ y = Some r.
Proof. destruct x; simpl; auto. Qed.

Lemma all_append p a b : all p (a ++ b) = all p a && all p b.
Proof. induction a; simpl; [reflexivity|]. rewrite IHa, andb_assoc. reflexivity. Qed.

(** What a match of the part after the article says about the text. *)
Lemma article_tail_inv pos rest g :
  run article_tail matched pos rest None = Some g ->
  (g = None /\ at_end rest = true) \/
  (exists ws r tail,
     ws <> "" /\ all isspace ws = true /\ at_end tail = true /\
     g = Some r /\ rest = ws ++ r ++ tail).
Proof.
  unfold article_tail, Plus. cbn [run]. intros H.
  apply orelse_some in H. destruct H as [H | H].
  - right. destruct rest as [|c rest]; [discriminate|].
    destruct (space c) eqn:Hc; [|discriminate].
    apply star_k_inv in H. destruct H as (w & rest1 & -> & Hw & H).
    apply star_k_inv in H. destruct H as (r & tail & -> & Hr & H).
    cbn beta in H.
    destruct (at_end tail) eqn:Ht; [|discriminate].
    unfold matched in H.
    match type of H with
    | context [take (?a + ?b - ?a) _] => replace (a + b - a) with b in H by lia
    end.
    rewrite take_append in H. injection H as <-.
    exists (String c w), r, tail. repeat split; try assumption; try discriminate.
    simpl. unfold space in Hc. rewrite Hc. exact Hw.
  - left. destruct (at_end rest); [|discriminate]. injection H as <-. auto.
Qed.

Lemma last_space_append a ws :
  ws <> "" -> all isspace ws = true ->
  exists c, last (a ++ ws) = Some c /\ isspace c = true.
Proof.
  intros Hne Hws. rewrite last_append.
  destruct (last ws) as [x|] eqn:Hl.
  - exists x. split; [reflexivity|]. eapply last_all; eassumption.
  - apply last_none in Hl. contradiction.
Qed.

(** What a match of the article pattern says about a trimmed text. *)
Lemma article_match_inv s g :
  re_match article_re s = Some g ->
  (forall c, last s = Some c -> isspace c = false) ->
  exists art, (art = "a" \/ art = "an") /\
    ((g = None /\ s = art) \/
     (exists ws r,
        ws <> "" /\ all isspace ws = true /\ r <> "" /\
        g = Some r /\ s = art ++ ws ++ r)).
Proof.
  rewrite article_re_alt. intros H Hlast.
  assert (Hany : exists art rest pos, (art = "a" \/ art = "an") /\ s = art ++ rest /\
            run article_tail matched pos rest None = Some g).
  { apply orelse_some in H. destruct H as [H | H];
      apply lit_k_inv in H; destruct H as (rest & -> & H); eauto 8. }
  clear H. destruct Hany as (art & rest & pos & Hart & -> & H).
  exists art. split; [exact Hart|].
  assert (Htail : forall x tail, at_end tail = true ->
            (forall c, last (x ++ tail) = Some c -> isspace c = false) -> tail = "").
  { intros x tail Ht Hl. apply at_end_trimmed in Ht. destruct Ht as [-> | ->]; [reflexivity|].
    specialize (Hl "010"%char). rewrite last_append in Hl. simpl in Hl.
    discriminate (Hl eq_refl). }
  apply article_tail_inv in H.
  destruct H as [[-> Hend] | (ws & r & tail & Hne & Hws & Hend & -> & ->)].
  - left. apply (Htail art) in Hend; [|exact Hlast]. subst rest.
    rewrite append_nil_r. auto.
  - right.
    assert (tail = "").
    { apply (Htail (art ++ ws ++ r)); [exact Hend|].
      rewrite !append_assoc. exact Hlast. }
    subst tail. rewrite append_nil_r in *.
    exists ws, r. repeat split; try assumption.
    intros ->. rewrite append_nil_r in Hlast.
    destruct (last_space_append art ws Hne Hws) as (c & Hc & Hsp).
    rewrite (Hlast c Hc) in Hsp. discriminate.
Qed.


Section Shift.
Context {A : Type} (d : nat).
Implicit Types (k : cont (A := A)).


Lemma lit_k_shift l k k' : shifted d k k' -> shifted d (lit_k l k) (lit_k l k').
Proof.
  intros Hk. induction l as [|a l IH]; intros p s g; simpl; [apply Hk|].
  destruct s as [|c s]; [reflexivity|].
  destruct (Ascii.eqb a c); [apply (IH (S p)) | reflexivity].
Qed.

Lemma star_k_shift q k k' : shifted d k k' -> shifted d (star_k q k) (star_k q k').
Proof.
  intros Hk p s. revert p. induction s as [|c s IH]; intros p g; simpl; [apply Hk|].
  rewrite (IH (S p)), Hk. reflexivity.
Qed.

(** Without [^] a match does not depend on where the text starts. *)
Lemma run_shift r : bol_free r = true ->
  forall k k', shifted d k k' -> shifted d (run r k) (run r k').
Proof.
  induction r as [| |l|q|q|r1 IH1 r2 IH2|r1 IH1 r2 IH2|r IH|r IH];
    simpl; intros Hr k k' Hk; try discriminate.
  - intros p s g. rewrite Hk. reflexivity.
  - apply lit_k_shift, Hk.
  - intros p [|c s] g; [reflexivity|]. rewrite (Hk (S p)). reflexivity.
  - apply star_k_shift, Hk.
  - apply andb_prop in Hr. destruct Hr. apply IH1, IH2; assumption.
  - apply andb_prop in Hr. destruct Hr as [Hr1 Hr2]. intros p s g.
    rewrite (IH1 Hr1 k k' Hk), (IH2 Hr2 k k' Hk). reflexivity.
  - intros p s g. rewrite (IH Hr k k' Hk), Hk. reflexivity.
  - intros p s g. apply (IH Hr). intros p' s' g'.
    replace (p' + d - (p + d)) with (p' - p) by lia. apply Hk.
Qed.
End Shift.

Lemma search_from_shift r s : bol_free r = true ->
  forall p p', search_from r p s = search_from r p' s.
Proof.
  intros Hr.
  assert (H0 : forall p s, run r matched p s None = run r matched 0 s None).
  { intros p s0. rewrite <- (Nat.add_0_l p).
    apply (run_shift p r Hr). intros q s1 g. reflexivity. }
  induction s as [|c s IH]; intros p p'; simpl.
  - rewrite (H0 p), (H0 p'). reflexivity.
  - rewrite (H0 p), (H0 p'), (IH (S p) (S p')). reflexivity.
Qed.


Lemma space_no_fraction_start c : isspace c = true -> no_fraction_start c = true.
Proof. by_cases_on_char c. Qed.

Lemma all_impl (p q : ascii -> bool) s :
  (forall c, p c = true -> q c = true) -> all p s = true -> all q s = true.
Proof.
  intros Hpq. induction s as [|c s IH]; simpl; [reflexivity|].
  intros H. apply andb_prop in H. destruct H as [Hc Hs].
  rewrite (Hpq c Hc), (IH Hs). reflexivity.
Qed.

Lemma contains_half_skip pre s :
  all no_fraction_start pre = true ->
  contains "half" (pre ++ s) = contains "half" s.
Proof.
  induction pre as [|c pre IH]; [reflexivity|].
  simpl all. intros H. apply andb_prop in H. destruct H as [Hc Hpre].
  unfold no_fraction_start in Hc. apply andb_prop in Hc. destruct Hc as [Hh _].
  apply negb_true_iff in Hh.
  change (String c pre ++ s) with (String c (pre ++ s)).
  cbn [contains startswith]. rewrite Hh. simpl. apply IH, Hpre.
Qed.

Lemma contains_quarter_skip pre s :
  all no_fraction_start pre = true ->
  contains "quarter" (pre ++ s) = contains "quarter" s.
Proof.
  induction pre as [|c pre IH]; [reflexivity|].
  simpl all. intros H. apply andb_prop in H. destruct H as [Hc Hpre].
  unfold no_fraction_start in Hc. apply andb_prop in Hc. destruct Hc as [_ Hq].
  apply negb_true_iff in Hq.
  change (String c pre ++ s) with (String c (pre ++ s)).
  cbn [contains startswith]. rewrite Hq. simpl. apply IH, Hpre.
Qed.

Lemma fraction_re_start c s pos :
  no_fraction_start c = true ->
  run fraction_re matched pos (String c s) None = None.
Proof.
  unfold no_fraction_start. intros H. apply andb_prop in H. destruct H as [Hh Hq].
  apply negb_true_iff in Hh, Hq.
  unfold fraction_re. cbn [run lit_k]. rewrite Hh, Hq. reflexivity.
Qed.

Lemma search_fraction_skip pre s : forall pos,
  all no_fraction_start pre = true ->
  search_from fraction_re pos (pre ++ s) =
  search_from fraction_re (pos + length pre) s.
Proof.
  induction pre as [|c pre IH]; intros pos.
  - intros _. simpl. rewrite Nat.add_0_r. reflexivity.
  - simpl all. intros H. apply andb_prop in H. destruct H as [Hc Hpre].
    change (String c pre ++ s) with (String c (pre ++ s)).
    cbn [search_from]. rewrite fraction_re_start by exact Hc.
    cbn [orelse]. rewrite IH by exact Hpre. f_equal. simpl. lia.
Qed.

(** The article rule changes neither the presence of a fraction word
    nor what the fraction pattern finds. *)
Lemma article_rule_fraction_words t :
  (forall c, last t = Some c -> isspace c = false) ->
  let lqty := snd (article_rule t (lower t)) in
  contains "half" lqty = contains "half" (lower t) /\
  contains "quarter" lqty = contains "quarter" (lower t) /\
  re_search fraction_re lqty = re_search fraction_re (lower t).
Proof.
  intros Hlast. cbv zeta. unfold article_rule.
  destruct (re_match article_re (lower t)) as [g|] eqn:Hm; [|cbn [snd]; auto].
  apply article_match_inv in Hm.
  - destruct Hm as (art & Hart & [[-> Ht] | (ws & r & Hne & Hws & Hr & -> & Ht)]).
    + rewrite Ht. destruct Hart as [-> | ->]; repeat split; reflexivity.
    + destruct r as [|c r]; [contradiction|]. cbn [snd].
      change (lower ("1" ++ " " ++ String c r)) with ("1 " ++ lower (String c r)).
      assert (Hlow : lower (String c r) = String c r).
      { rewrite <- append_assoc in Ht. apply lower_part in Ht. tauto. }
      rewrite Hlow, Ht, <- append_assoc.
      assert (Hpre : all no_fraction_start (art ++ ws) = true).
      { rewrite all_append. apply andb_true_intro. split.
        - destruct Hart as [-> | ->]; reflexivity.
        - eapply all_impl; [apply space_no_fraction_start | exact Hws]. }
      rewrite (contains_half_skip (art ++ ws)), (contains_quarter_skip (art ++ ws))
        by exact Hpre.
      split; [reflexivity | split; [reflexivity|]].
      unfold re_search.
      rewrite (search_fraction_skip (art ++ ws)) by exact Hpre.
      rewrite (search_fraction_skip "1 ") by reflexivity.
      apply search_from_shift. reflexivity.
  - intros c. rewrite last_lower.
    destruct (last t) as [x|] eqn:Hx; [|discriminate].
    intros [= <-]. rewrite isspace_lower_char. apply Hlast. reflexivity.
Qed.

Lemma phrase_parts np :
  phrase np = true ->
  np <> "" /\ all dot np = true /\
  (forall c, head np = Some c -> isspace c = false).
Proof.
  unfold phrase. intros H. apply andb_prop in H. destruct H as [Hd Hh].
  destruct np as [|c np]; [discriminate|].
  repeat split; [discriminate | exact Hd |].
  intros c' [= <-]. apply negb_true_iff. exact Hh.
Qed.

(** What the article rule leaves when a phrase follows the article. *)
Lemma article_rule_phrase t art ws np :
  art = "a" \/ art = "an" ->
  ws <> "" -> all isspace ws = true -> phrase np = true ->
  lower t = art ++ ws ++ np ->
  article_rule t (lower t) = ("1 " ++ np, "1 " ++ np).
Proof.
  intros Hart Hne Hws Hnp Ht.
  destruct (phrase_parts np Hnp) as (Hnp0 & Hdot & Hhd).
  unfold article_rule. rewrite Ht, article_match_phrase by assumption.
  destruct np as [|c np]; [contradiction|].
  f_equal.
  change (lower ("1" ++ " " ++ String c np)) with ("1 " ++ lower (String c np)).
  f_equal. rewrite <- append_assoc in Ht.
  apply lower_part in Ht. tauto.
Qed.

(** The article rule through the whole normalizer, when no fraction
    word follows. *)
Lemma normalize_article_general :
  forall nm q art,
     art = "a" \/ art = "an" ->
     (lower (strip q) = art ->
      _normalize_quantity_and_name (VStr nm) (VStr q) = Ok (strip nm, "1")) /\
     (forall ws np,
        ws <> "" -> all isspace ws = true -> phrase np = true ->
        contains "half" np = false -> contains "quarter" np = false ->
        lower (strip q) = art ++ ws ++ np ->
        _normalize_quantity_and_name (VStr nm) (VStr q) =
        Ok (strip nm, "1 " ++ np)).
Proof.
  intros nm q art Hart.
  change (VStr q) with (quantity_value (Some q)).
  rewrite normalize_steps. cbv zeta. cbn [quantity_text].
  split.
  - intros Ht. unfold article_rule. rewrite Ht, article_match_bare by exact Hart.
    reflexivity.
  - intros ws np Hne Hws Hnp Hhalf Hquarter Ht.
    rewrite (article_rule_phrase _ art ws np) by assumption.
    cbn [fst snd]. unfold fraction_rule.
    rewrite contains_half_after_one, contains_quarter_after_one, Hhalf, Hquarter.
    cbn [orb bind Py.strip fst snd]. do 2 f_equal.
    destruct (phrase_parts np Hnp) as (Hnp0 & _ & _).
    apply strip_id.
    + intros c [= <-]. reflexivity.
    + intros c. change ("1 " ++ np) with ("1" ++ " " ++ np). rewrite !last_append.
      destruct (last np) as [x|] eqn:Hl.
      * intros [= <-].
        assert (Hlast : last (lower (strip q)) = Some x).
        { rewrite Ht, !last_append, Hl. reflexivity. }
        rewrite last_lower in Hlast.
        destruct (last (strip q)) as [y|] eqn:Hy; [|discriminate].
        injection Hlast as <-. rewrite isspace_lower_char.
        eapply last_strip. exact Hy.
      * apply last_none in Hl. contradiction.
Qed.

(** The fraction rule on the text the article rule leaves. *)
Lemma normalize_fraction_steps nm q referred :
  let lqty := snd (article_rule (strip q) (lower (strip q))) in
  contains "half" lqty || contains "quarter" lqty = true ->
  re_search fraction_re lqty = Some (Some referred) ->
  _normalize_quantity_and_name (VStr nm) (VStr q) =
  Ok (if contains "toast" (lower nm) && contains referred (lower nm)
      then (referred, fraction_of lqty)
      else (strip nm, fraction_of lqty ++ " " ++ referred)).
Proof.
  intros lqty Hword Hfound.
  change (VStr q) with (quantity_value (Some q)).
  rewrite normalize_steps. cbv zeta. cbn [quantity_text].
  fold lqty. unfold fraction_rule. rewrite Hword, Hfound.
  apply fraction_group in Hfound.
  destruct Hfound as (w & [= <-] & Hne & Hw).
  cbn [Py.lower bind].
  destruct (contains "toast" (lower nm)); cbn [andb bind].
  - destruct (contains referred (lower nm)); cbn [bind Py.strip fst snd].
    + rewrite strip_word by exact Hw. rewrite strip_fraction. reflexivity.
    + rewrite strip_fraction_word; [reflexivity | apply fraction_of_cases | | ]; assumption.
  - cbn [Py.strip fst snd].
    rewrite strip_fraction_word; [reflexivity | apply fraction_of_cases | | ]; assumption.
Qed.

End ArticleFacts.

Section NormalizeClaims.
Import Str StrFacts Re ReFacts NormalizeFacts ArticleFacts.

(** C6. When neither rule applies (the trimmed, lower-cased quantity
    does not match the article pattern and contains neither "half" nor
    "quarter"), the normalizer does not fail and returns the name and
    the quantity trimmed; an absent quantity counts as the empty
    text. *)
Theorem normalize_no_rule_passthrough (nm : string) (qty : option string) :
  re_match article_re (lower (strip (quantity_text qty))) = None ->
  contains "half" (lower (strip (quantity_text qty))) = false ->
  contains "quarter" (lower (strip (quantity_text qty))) = false ->
  _normalize_quantity_and_name (VStr nm) (quantity_value qty) =
  Ok (strip nm, strip (quantity_text qty)).
Proof.
  intros Hart Hhalf Hquarter.
  rewrite normalize_steps. cbv zeta.
  unfold article_rule. rewrite Hart. cbn [fst snd].
  unfold fraction_rule. rewrite Hhalf, Hquarter.
  cbn [orb bind Py.strip fst snd]. rewrite strip_idem. reflexivity.
Qed.

Lemma normalize_no_rule_passthrough_witness :
  _normalize_quantity_and_name (VStr " Olive Oil ") (VStr "  2 Tbsp ") =
    Ok ("Olive Oil", "2 Tbsp") /\
  _normalize_quantity_and_name (VStr "salt") VNone = Ok ("salt", "").
Proof.
  split.
  - apply (normalize_no_rule_passthrough " Olive Oil " (Some "  2 Tbsp ")); reflexivity.
  - apply (normalize_no_rule_passthrough "salt" None); reflexivity.
Defined.

(** C2 as stated fails: the quantity "half a slice of toast" does not
    rename "toast" to "slice". *)
Lemma normalize_toast_not_renamed :
  _normalize_quantity_and_name (VStr "toast") (VStr "half a slice of toast")
  <> Ok ("slice", "1/2").
Proof. vm_compute. discriminate. Qed.

(** C2, amended. Name "toast" with quantity "half a slice of toast"
    keeps the name "toast" and gets the quantity "1/2 slice": "slice"
    is no part of "toast". *)
Theorem normalize_toast_half_slice :
  _normalize_quantity_and_name (VStr "toast") (VStr "half a slice of toast")
  = Ok ("toast", "1/2 slice").
Proof. reflexivity. Qed.

(** C3 as stated fails: after "a" the noun phrase "half cup" is not
    kept; the fraction rule turns the rewritten text into "1/2 cup". *)
Lemma normalize_article_then_fraction :
  _normalize_quantity_and_name (VStr "butter") (VStr "a half cup")
  <> Ok ("butter", "1 half cup").
Proof. vm_compute. discriminate. Qed.

(** C3, amended. When the trimmed, lower-cased quantity is "a" or "an",
    the quantity becomes "1"; when it is "a" or "an", white space and a
    noun phrase that contains neither "half" nor "quarter", the quantity
    becomes "1", one blank and the lower-cased noun phrase.  So "a
    slice" gives "1 slice" and "an apple" gives "1 apple". *)
Theorem normalize_article_numeral :
  (forall nm q art,
     art = "a" \/ art = "an" ->
     (lower (strip q) = art ->
      _normalize_quantity_and_name (VStr nm) (VStr q) = Ok (strip nm, "1")) /\
     (forall ws np,
        ws <> "" -> all isspace ws = true -> phrase np = true ->
        contains "half" np = false -> contains "quarter" np = false ->
        lower (strip q) = art ++ ws ++ np ->
        _normalize_quantity_and_name (VStr nm) (VStr q) =
        Ok (strip nm, "1 " ++ np))) /\
  (forall nm,
     _normalize_quantity_and_name (VStr nm) (VStr "a slice") =
     Ok (strip nm, "1 slice")) /\
  (forall nm,
     _normalize_quantity_and_name (VStr nm) (VStr "an apple") =
     Ok (strip nm, "1 apple")).
Proof.
  pose proof normalize_article_general as General.
  split; [exact General | split; intros nm].
  - apply (proj2 (General nm "a slice" "a" (or_introl eq_refl)) " " "slice");
      solve [reflexivity | discriminate].
  - apply (proj2 (General nm "an apple" "an" (or_intror eq_refl)) " " "apple");
      solve [reflexivity | discriminate].
Qed.

Lemma normalize_article_numeral_witness :
  _normalize_quantity_and_name (VStr "bread") (VStr " A  thick Slice ") =
    Ok ("bread", "1 thick slice") /\
  _normalize_quantity_and_name (VStr "egg") (VStr "An") = Ok ("egg", "1").
Proof.
  split.
  - apply (proj2 (proj1 normalize_article_numeral "bread" " A  thick Slice " "a"
                    (or_introl eq_refl)) "  " "thick slice");
      solve [reflexivity | discriminate].
  - apply (proj1 (proj1 normalize_article_numeral "egg" "An" "an"
                    (or_intror eq_refl))).
    reflexivity.
Defined.

(** C1 as stated fails: "avocado" is part of the name "avocado", yet
    the quantity is not "1/2"; it keeps the noun phrase. *)
Lemma normalize_avocado_keeps_phrase :
  _normalize_quantity_and_name (VStr "avocado") (VStr "half an avocado")
  <> Ok ("avocado", "1/2").
Proof. vm_compute. discriminate. Qed.

(** C1, amended. Let the trimmed, lower-cased quantity contain "half" or
    "quarter" and let the pattern find the noun phrase [referred] after
    the fraction word (optionally preceded by "an", "a" or "the").  The
    fraction is "1/2" when "half" occurs and "1/4" otherwise.  If the
    lower-cased name contains "toast" and contains the noun phrase, the
    name becomes the noun phrase and the quantity exactly the fraction;
    otherwise the name is only trimmed and the quantity is the fraction,
    one blank and the noun phrase.  Name "avocado" with quantity "half
    an avocado" yields name "avocado" and quantity "1/2 avocado". *)
Theorem normalize_fraction_noun_phrase :
  (forall nm q referred,
     let lqty := lower (strip q) in
     let frac := if contains "half" lqty then "1/2" else "1/4" in
     contains "half" lqty || contains "quarter" lqty = true ->
     re_search fraction_re lqty = Some (Some referred) ->
     _normalize_quantity_and_name (VStr nm) (VStr q) =
     Ok (if contains "toast" (lower nm) && contains referred (lower nm)
         then (referred, frac)
         else (strip nm, frac ++ " " ++ referred))) /\
  _normalize_quantity_and_name (VStr "avocado") (VStr "half an avocado")
  = Ok ("avocado", "1/2 avocado").
Proof.
  split; [|reflexivity].
  intros nm q referred. cbv zeta. intros Hword Hfound.
  destruct (article_rule_fraction_words (strip q) (last_strip q))
    as (Hhalf & Hquarter & Hsearch).
  rewrite <- Hhalf, <- Hquarter in Hword. rewrite <- Hsearch in Hfound.
  rewrite (normalize_fraction_steps nm q referred Hword Hfound).
  unfold fraction_of. rewrite Hhalf. reflexivity.
Qed.

Lemma normalize_fraction_noun_phrase_witness :
  _normalize_quantity_and_name (VStr "Toast slice") (VStr "Half a slice") =
    Ok ("slice", "1/2") /\
  _normalize_quantity_and_name (VStr " Flour ") (VStr "a quarter cup") =
    Ok ("Flour", "1/4 cup").
Proof.
  split.
  - apply (proj1 normalize_fraction_noun_phrase "Toast slice" "Half a slice" "slice");
      reflexivity.
  - apply (proj1 normalize_fraction_noun_phrase " Flour " "a quarter cup" "cup");
      reflexivity.
Defined.

End NormalizeClaims.

(** ** The extraction loop *)

Section LoopClaims.
Import Str StrFacts Re ReFacts NormalizeFacts ODict ODictFacts MergeFacts.

Lemma unwrap_field key d :
  (x <- Py.get (VDict d) key VNone ;; unwrap x) = Ok (field key d).
Proof.
  unfold field, unwrap, Py.get, bind.
  destruct (ODict.get key d) as [[| | | | |t]|]; try reflexivity.
Qed.

(** The loop body on a dict item, in terms of the fields it reads. *)
Lemma extract_body_fields d parsed :
  extract_body (VDict d) parsed =
  if Py.truthy (field "name" d) then
    nm <- Py.strip (field "name" d) ;;
    nq <- _normalize_quantity_and_name (VStr nm) (field "quantity" d) ;;
    Ok (parsed ++ [{| name := fst nq; quantity := snd nq |}])%list
  else Ok parsed.
Proof.
  unfold extract_body, field, unwrap, Py.get, bind.
  destruct (ODict.get "name" d) as [[| | | | |t]|];
    destruct (ODict.get "quantity" d) as [[| | | | |t']|]; cbn [Py.is_dict];
    match goal with
    | |- context [negb (Py.truthy ?v)] => destruct (Py.truthy v); reflexivity
    end.
Qed.

(** An item whose name is missing, None or empty leaves [parsed] as it
    is; a name or quantity given as a dict counts as its ["text"]. *)
Lemma extract_body_drops d parsed :
  field "name" d = VNone \/ field "name" d = VStr "" ->
  extract_body (VDict d) parsed = Ok parsed.
Proof. rewrite extract_body_fields. intros [-> | ->]; reflexivity. Qed.

Lemma extract_body_keeps d parsed raw :
  field "name" d = VStr raw -> raw <> "" ->
  extract_body (VDict d) parsed =
  nq <- _normalize_quantity_and_name (VStr (strip raw)) (field "quantity" d) ;;
  Ok (parsed ++ [{| name := fst nq; quantity := snd nq |}])%list.
Proof.
  intros Hn Hne. rewrite extract_body_fields, Hn.
  destruct raw; [contradiction | reflexivity].
Qed.

(** The normalizer returns an empty name only for a name that trims to
    the empty text. *)
Lemma normalize_name_nonempty n qty n' q' :
  _normalize_quantity_and_name (VStr n) qty = Ok (n', q') ->
  strip n <> "" -> n' <> "".
Proof.
  unfold _normalize_quantity_and_name.
  destruct (Py.strip (Py.or_else qty (VStr ""))) as [t|e]; [|discriminate].
  cbn [bind]. destruct (article_rule t (lower t)) as [qt lq].
  unfold fraction_rule.
  destruct (contains "half" lq || contains "quarter" lq).
  - destruct (re_search fraction_re lq) as [[r|]|] eqn:Hs; cbn [Py.lower bind].
    + apply fraction_group in Hs. destruct Hs as (w & [= <-] & Hne & Hw).
      destruct (contains "toast" (lower n)); [destruct (contains r (lower n))|];
        cbn [bind Py.strip]; intros [= <- <-] Hn; try exact Hn.
      rewrite strip_word by exact Hw. exact Hne.
    + destruct (contains "toast" (lower n)); [discriminate|].
      cbn [bind Py.strip]. intros [= <- <-] Hn. exact Hn.
    + cbn [bind Py.strip]. intros [= <- <-] Hn. exact Hn.
  - cbn [bind Py.strip]. intros [= <- <-] Hn. exact Hn.
Qed.

Lemma extract_loop_names items : forall parsed0 parsed,
  blank_free items ->
  Forall (fun p => name p <> "") parsed0 ->
  for_each extract_body items parsed0 = Ok parsed ->
  Forall (fun p => name p <> "") parsed.
Proof.
  induction items as [|item items IH]; simpl; intros parsed0 parsed Hb H0 H.
  - injection H as <-. exact H0.
  - destruct (extract_body item parsed0) as [parsed1|e] eqn:Hitem; [|discriminate].
    cbn [bind] in H. apply (IH parsed1 parsed); [| |exact H].
    + intros d raw Hin. apply Hb. right. exact Hin.
    + destruct item as [| | | | |d]; try discriminate.
      rewrite extract_body_fields in Hitem.
      destruct (Py.truthy (field "name" d)) eqn:Ht; [|injection Hitem as <-; exact H0].
      destruct (field "name" d) as [| | |raw| |] eqn:Hf; try discriminate.
      cbn [Py.strip bind] in Hitem.
      destruct (_normalize_quantity_and_name (VStr (strip raw)) (field "quantity" d))
        as [[n' q']|e] eqn:Hn; [|discriminate].
      cbn [bind fst snd] in Hitem. injection Hitem as <-.
      apply Forall_app. split; [exact H0|]. constructor; [|constructor].
      cbn [name]. apply (normalize_name_nonempty _ _ _ _ Hn).
      rewrite strip_idem. apply (Hb d raw); [left; reflexivity | exact Hf |].
      intros ->. discriminate.
Qed.

Lemma merge_body_subset merged p k q :
  In (k, q) (merge_body merged p) -> In (k, q) merged \/ q = p.
Proof.
  unfold merge_body.
  destruct (negb (mem (key_of p) merged)).
  - intros H. apply In_set in H. destruct H as [[= -> ->]|H]; auto.
  - destruct (get (key_of p) merged) as [stored|]; [|auto].
    destruct (negb (Str.nonempty (quantity stored)) && Str.nonempty (quantity p));
      [|auto].
    intros H. apply In_set in H. destruct H as [[= -> ->]|H]; auto.
Qed.

(** The merge returns entries of [parsed] only. *)
Lemma merge_duplicates_subset parsed p :
  In p (merge_duplicates parsed) -> In p parsed.
Proof.
  unfold merge_duplicates, values.
  assert (H : forall merged k q,
            In (k, q) (fold_left merge_body parsed merged) ->
            In (k, q) merged \/ In q parsed).
  { induction parsed as [|p0 parsed IH]; simpl; intros merged k q Hq; [auto|].
    apply IH in Hq. destruct Hq as [Hq|Hq]; [|auto].
    apply merge_body_subset in Hq. destruct Hq as [Hq| ->]; auto. }
  intros Hp. apply in_map_iff in Hp. destruct Hp as ([k q] & <- & Hq).
  apply H in Hq. destruct Hq as [[]|Hq]. exact Hq.
Qed.

Lemma parse_ingredients_names E text x out results items l :
  extract_json x text schema = Ok out ->
  Py.get out "ingredients" (VList []) = Ok results ->
  Py.iterate results = Ok items ->
  blank_free items ->
  parse_ingredients E text (Some x) = Ok l ->
  Forall (fun p => name p <> "") l.
Proof.
  intros Hout Hres Hit Hb. unfold parse_ingredients.
  cbn [bind]. rewrite Hout. cbn [bind]. rewrite Hres. cbn [bind]. rewrite Hit.
  cbn [bind].
  destruct (for_each extract_body items []) as [parsed|e] eqn:Hloop; [|discriminate].
  cbn [bind]. intros [= <-].
  apply Forall_forall. intros p Hp. apply merge_duplicates_subset in Hp.
  revert p Hp. apply Forall_forall.
  apply (extract_loop_names items [] parsed Hb); [constructor | exact Hloop].
Qed.

(** C10. The claim's conclusion fails on the code: a name made of white
    space passes the emptiness test of line 110, is trimmed to the empty
    text on line 112, and is returned as an entry with an empty name. *)
Theorem parse_ingredients_blank_name :
  parse_ingredients no_library (VStr "salt to taste")
    (Some (constant_extractor blank_name_out))
  = Ok [ {| name := ""; quantity := "1" |} ].
Proof. reflexivity. Qed.

End LoopClaims.

(** ** The /parse route *)

Section RouteClaims.

(** Where the 400 answer holds: a body that is an object without the
    key [text], or no JSON body at all, is answered with status 400 and
    the body [{"error": "missing 'text' in JSON body"}]. *)
Theorem parse_route_missing_text E payload :
  payload = VNone \/
  (exists d, payload = VDict d /\ ODict.get "text" d = None) ->
  parse_route E payload =
  Ok {| status := 400; body := error_body "missing 'text' in JSON body" |}.
Proof.
  intros [-> | (d & -> & Hd)]; [reflexivity|].
  unfold parse_route. destruct d as [|kv d]; [reflexivity|].
  cbn [Py.truthy negb py_in bind]. unfold ODict.mem. rewrite Hd. reflexivity.
Qed.

Lemma parse_route_missing_text_witness :
  parse_route no_library (VDict [("txt", VStr "two eggs")]) =
  Ok {| status := 400; body := error_body "missing 'text' in JSON body" |}.
Proof.
  apply parse_route_missing_text. right.
  exists [("txt", VStr "two eggs")]. split; reflexivity.
Defined.

(** C7. The claim is right and the code misses a case: a request whose
    JSON body is the number 5 has no [text] field, yet it is not
    answered with status 400.  The body is true-ish, so line 138 goes on
    to test ["text" not in payload], which raises TypeError on a number;
    the test stands outside both [try] blocks, so the exception leaves
    the route unhandled. *)
Theorem parse_route_number_not_400 E :
  parse_route E (VInt 5) =
    Raise (TypeError "argument of type 'int' is not iterable") /\
  parse_route E (VInt 5) <>
    Ok {| status := 400; body := error_body "missing 'text' in JSON body" |}.
Proof. split; [reflexivity | discriminate]. Qed.

Lemma parse_route_text E d text :
  ODict.get "text" d = Some text ->
  parse_route E (VDict d) =
  match load_extractor E (use_api_of E) (DEFAULT_MODEL E) with
  | Raise e => Ok {| status := 500; body := error_body (exn_message e) |}
  | Ok x =>
      match parse_ingredients E text (Some x) with
      | Raise e =>
          Ok {| status := 500;
                body := error_body ("parse failed: " ++ exn_message e) |}
      | Ok l =>
          Ok {| status := 200;
                body := VDict [("ingredients", VList (map ingredient_json l))] |}
      end
  end.
Proof.
  intros Hd. unfold parse_route.
  destruct d as [|kv d]; [discriminate|].
  cbn [Py.truthy negb py_in py_index bind]. unfold ODict.mem. rewrite Hd.
  reflexivity.
Qed.

(** C8. For a POST /parse request whose body has a [text] field: when
    the backend cannot be loaded the answer is status 500 with the
    exception's message in [error]; when extraction (or anything else in
    [parse_ingredients]) raises, the answer is status 500 with "parse
    failed: " and the message in [error]; otherwise the answer is status
    200 with the parsed list in [ingredients]. *)
Theorem parse_route_text_outcomes E d text :
  ODict.get "text" d = Some text ->
  (forall e,
     load_extractor E (use_api_of E) (DEFAULT_MODEL E) = Raise e ->
     parse_route E (VDict d) =
     Ok {| status := 500; body := error_body (exn_message e) |}) /\
  (forall x e,
     load_extractor E (use_api_of E) (DEFAULT_MODEL E) = Ok x ->
     extract_json x text schema = Raise e ->
     parse_route E (VDict d) =
     Ok {| status := 500;
           body := error_body ("parse failed: " ++ exn_message e) |}) /\
  (forall x e,
     load_extractor E (use_api_of E) (DEFAULT_MODEL E) = Ok x ->
     parse_ingredients E text (Some x) = Raise e ->
     parse_route E (VDict d) =
     Ok {| status := 500;
           body := error_body ("parse failed: " ++ exn_message e) |}) /\
  (forall x l,
     load_extractor E (use_api_of E) (DEFAULT_MODEL E) = Ok x ->
     parse_ingredients E text (Some x) = Ok l ->
     parse_route E (VDict d) =
     Ok {| status := 200;
           body := VDict [("ingredients", VList (map ingredient_json l))] |}).
Proof.
  intros Hd. rewrite (parse_route_text E d text Hd).
  repeat split.
  - intros e ->. reflexivity.
  - intros x e -> He. unfold parse_ingredients. cbn [bind]. rewrite He. reflexivity.
  - intros x e -> ->. reflexivity.
  - intros x l -> ->. reflexivity.
Qed.

Lemma parse_route_text_outcomes_witness :
  parse_route no_library (VDict [("text", VStr "a slice of tomato")]) =
    Ok {| status := 500;
          body := error_body
            "GLiNER2 library not available; install gliner2 or set PIONEER_API_KEY to use API mode" |} /\
  parse_route (with_extractor (failing_extractor (OtherException "model crashed")))
    (VDict [("text", VStr "a slice of tomato")]) =
    Ok {| status := 500; body := error_body "parse failed: model crashed" |} /\
  parse_route (with_extractor (constant_extractor tomato_out))
    (VDict [("text", VStr "a slice of tomato")]) =
    Ok {| status := 200;
          body := VDict [("ingredients",
                          VList [VDict [("name", VStr "tomato");
                                        ("quantity", VStr "2 slices")]])] |}.
Proof.
  split; [|split].
  - apply (proj1 (parse_route_text_outcomes no_library
                    [("text", VStr "a slice of tomato")] _ eq_refl)
             (RuntimeError
                "GLiNER2 library not available; install gliner2 or set PIONEER_API_KEY to use API mode")).
    reflexivity.
  - apply (proj1 (proj2 (parse_route_text_outcomes _
                    [("text", VStr "a slice of tomato")] _ eq_refl))
             (failing_extractor (OtherException "model crashed"))
             (OtherException "model crashed")); reflexivity.
  - apply (proj2 (proj2 (proj2 (parse_route_text_outcomes _
                    [("text", VStr "a slice of tomato")] _ eq_refl)))
             (constant_extractor tomato_out)
             [ {| name := "tomato"; quantity := "2 slices" |} ]); reflexivity.
Defined.

End RouteClaims.

(** ** More on the normalizer *)

Section MoreNormalizer.
Import Str StrFacts Re ReFacts NormalizeFacts ArticleFacts ODict ODictFacts MergeFacts.

Lemma not_word_none : ~ is_word None.
Proof. intros (w & [=] & _). Qed.

(** The normalizer on string inputs when a fraction word is present. *)
Lemma normalize_fraction_cases nm qty :
  let lqty := lower (strip (quantity_text qty)) in
  fraction_word lqty = true ->
  _normalize_quantity_and_name (VStr nm) (quantity_value qty) =
  match re_search fraction_re lqty with
  | Some (Some referred) =>
      Ok (if contains "toast" (lower nm) && contains referred (lower nm)
          then (referred, fraction_of lqty)
          else (strip nm, fraction_of lqty ++ " " ++ referred))
  | _ => Ok (strip nm, fraction_of lqty)
  end.
Proof.
  cbv zeta. unfold fraction_word. intros Hword.
  destruct (article_rule_fraction_words (strip (quantity_text qty))
              (last_strip (quantity_text qty))) as (Hhalf & Hquarter & Hsearch).
  rewrite normalize_steps. cbv zeta.
  assert (Hfrac : fraction_of (snd (article_rule (strip (quantity_text qty))
                                     (lower (strip (quantity_text qty))))) =
                  fraction_of (lower (strip (quantity_text qty)))).
  { unfold fraction_of. rewrite Hhalf. reflexivity. }
  unfold fraction_rule. cbv zeta. rewrite Hhalf, Hquarter, Hword, Hsearch, Hfrac.
  destruct (re_search fraction_re (lower (strip (quantity_text qty))))
    as [[r|]|] eqn:Hs.
  - apply fraction_group in Hs. destruct Hs as (w & [= <-] & Hne & Hw).
    cbn [Py.lower bind].
    destruct (contains "toast" (lower nm)); cbn [andb bind].
    + destruct (contains r (lower nm)); cbn [bind Py.strip fst snd].
      * rewrite strip_word by exact Hw. rewrite strip_fraction. reflexivity.
      * rewrite strip_fraction_word; [reflexivity | apply fraction_of_cases | | ]; assumption.
    + cbn [Py.strip fst snd].
      rewrite strip_fraction_word; [reflexivity | apply fraction_of_cases | | ]; assumption.
  - apply fraction_group in Hs. destruct (not_word_none Hs).
  - cbn [bind Py.strip fst snd]. rewrite strip_fraction. reflexivity.
Qed.

(** The normalizer on string inputs when no fraction word is present. *)
Lemma normalize_plain_cases nm qty :
  let t := strip (quantity_text qty) in
  fraction_word (lower t) = false ->
  _normalize_quantity_and_name (VStr nm) (quantity_value qty) =
  Ok (strip nm, strip (fst (article_rule t (lower t)))).
Proof.
  cbv zeta. unfold fraction_word. intros Hword.
  destruct (article_rule_fraction_words (strip (quantity_text qty))
              (last_strip (quantity_text qty))) as (Hhalf & Hquarter & _).
  rewrite normalize_steps. cbv zeta.
  unfold fraction_rule. rewrite Hhalf, Hquarter, Hword. reflexivity.
Qed.

Lemma normalize_strings_ok (nm : string) (qty : option string) :
  exists n q,
    _normalize_quantity_and_name (VStr nm) (quantity_value qty) = Ok (n, q).
Proof.
  destruct (fraction_word (lower (strip (quantity_text qty)))) eqn:Hw.
  - rewrite (normalize_fraction_cases nm qty Hw).
    destruct (re_search fraction_re _) as [[r|]|]; [|eauto|eauto].
    destruct (contains "toast" (lower nm) && contains r (lower nm)); eauto.
  - rewrite (normalize_plain_cases nm qty Hw). eauto.
Qed.

(** X1. On a string name and a string or absent quantity the normalizer
    never raises. *)
Theorem normalize_strings_never_raise (nm : string) (qty : option string) :
  exists n q,
    _normalize_quantity_and_name (VStr nm) (quantity_value qty) = Ok (n, q).
Proof. exact (normalize_strings_ok nm qty). Qed.

(** X2. Whatever the arguments, a name and a quantity the normalizer
    returns are trimmed: trimming them again changes nothing. *)
Theorem normalize_results_trimmed (nm qty : pyval) (n q : string) :
  _normalize_quantity_and_name nm qty = Ok (n, q) ->
  strip n = n /\ strip q = q.
Proof.
  unfold _normalize_quantity_and_name.
  destruct (Py.strip (Py.or_else qty (VStr ""))) as [t|e]; [|discriminate].
  cbn [bind]. destruct (article_rule t (lower t)) as [qt lq].
  destruct (fraction_rule nm qt lq) as [[nm' qt']|e]; [|discriminate].
  cbn [bind]. destruct nm'; try discriminate.
  cbn [Py.strip bind]. intros [= <- <-]. split; apply strip_idem.
Qed.

Lemma normalize_results_trimmed_witness :
  strip "Olive Oil" = "Olive Oil" /\ strip "1/4 cup" = "1/4 cup".
Proof.
  apply (normalize_results_trimmed (VStr "  Olive Oil ") (VStr " A Quarter  Cup ")).
  reflexivity.
Defined.

(** X3. A quantity that is true-ish but not a string makes the
    normalizer raise AttributeError for [strip], whatever the name. *)
Theorem normalize_bad_quantity_raises (nm qty : pyval) :
  Py.truthy qty = true ->
  (forall s, qty <> VStr s) ->
  _normalize_quantity_and_name nm qty =
  Raise (AttributeError
    ("'" ++ Py.type_name qty ++ "' object has no attribute 'strip'")).
Proof.
  intros Ht Hs. unfold _normalize_quantity_and_name, Py.or_else. rewrite Ht.
  destruct qty; try reflexivity. destruct (Hs s eq_refl).
Qed.

Lemma normalize_bad_quantity_raises_witness :
  _normalize_quantity_and_name (VStr "egg") (VList [VStr "2"]) =
  Raise (AttributeError "'list' object has no attribute 'strip'").
Proof.
  apply (normalize_bad_quantity_raises (VStr "egg") (VList [VStr "2"])).
  - reflexivity.
  - intros s. discriminate.
Defined.

(** X4. A false-ish quantity of any type (None, False, 0, an empty
    string, list or dict) is treated as the empty text: a string name
    comes back trimmed with the empty quantity. *)
Theorem normalize_falsy_quantity_is_empty (nm : string) (qty : pyval) :
  Py.truthy qty = false ->
  _normalize_quantity_and_name (VStr nm) qty = Ok (strip nm, "").
Proof.
  intros Ht. unfold _normalize_quantity_and_name, Py.or_else. rewrite Ht. reflexivity.
Qed.

Lemma normalize_falsy_quantity_is_empty_witness :
  _normalize_quantity_and_name (VStr " egg ") (VInt 0) = Ok ("egg", "").
Proof. apply (normalize_falsy_quantity_is_empty " egg " (VInt 0)). reflexivity. Defined.

(** X5. A name that is not a string makes the normalizer raise
    AttributeError (for [lower] or [strip]) when the quantity is a string
    or absent. *)
Theorem normalize_bad_name_raises (nm : pyval) (qty : option string) :
  (forall s, nm <> VStr s) ->
  exists attr,
    (attr = "lower" \/ attr = "strip") /\
    _normalize_quantity_and_name nm (quantity_value qty) =
    Raise (AttributeError
      ("'" ++ Py.type_name nm ++ "' object has no attribute '" ++ attr ++ "'")).
Proof.
  intros Hs. unfold _normalize_quantity_and_name.
  rewrite strip_quantity. cbn [bind].
  destruct (article_rule _ _) as [qt lq]. unfold fraction_rule.
  assert (Hl : Py.lower nm = Py.no_attribute nm "lower").
  { destruct nm; try reflexivity. destruct (Hs s eq_refl). }
  assert (Ht : Py.strip nm = Py.no_attribute nm "strip").
  { destruct nm; try reflexivity. destruct (Hs s eq_refl). }
  destruct (contains "half" lq || contains "quarter" lq).
  - destruct (re_search fraction_re lq) as [[r|]|].
    + exists "lower". rewrite Hl. auto.
    + exists "lower". rewrite Hl. auto.
    + exists "strip". cbn [bind]. rewrite Ht. auto.
  - exists "strip". cbn [bind]. rewrite Ht. auto.
Qed.

Lemma normalize_bad_name_raises_witness :
  exists attr,
    (attr = "lower" \/ attr = "strip") /\
    _normalize_quantity_and_name (VInt 7) (VStr "half a cup") =
    Raise (AttributeError
      ("'int' object has no attribute '" ++ attr ++ "'")).
Proof.
  apply (normalize_bad_name_raises (VInt 7) (Some "half a cup")).
  intros s. discriminate.
Defined.

(** X6. A name whose lower-cased form does not contain "toast" is never
    renamed: the normalizer returns it trimmed, whatever the quantity. *)
Theorem normalize_keeps_name_without_toast (nm : string) (qty : option string) :
  contains "toast" (lower nm) = false ->
  exists q,
    _normalize_quantity_and_name (VStr nm) (quantity_value qty) = Ok (strip nm, q).
Proof.
  intros Hn.
  destruct (fraction_word (lower (strip (quantity_text qty)))) eqn:Hw.
  - rewrite (normalize_fraction_cases nm qty Hw), Hn.
    destruct (re_search fraction_re _) as [[r|]|]; cbn [andb]; eauto.
  - rewrite (normalize_plain_cases nm qty Hw). eauto.
Qed.

Lemma normalize_keeps_name_without_toast_witness :
  exists q,
    _normalize_quantity_and_name (VStr " Avocado ") (VStr "half an avocado") =
    Ok ("Avocado", q).
Proof.
  apply (normalize_keeps_name_without_toast " Avocado " (Some "half an avocado")).
  reflexivity.
Defined.

(** X7. When the trimmed, lower-cased quantity contains "half" or
    "quarter", the returned quantity is the fraction alone or the
    fraction, one blank and one word of letters and hyphens; the fraction
    is "1/2" as soon as "half" occurs.  Whatever else the quantity said
    (a number, further words) is dropped. *)
Theorem normalize_fraction_quantity_shape (nm : string) (qty : option string) :
  let lqty := lower (strip (quantity_text qty)) in
  let frac := if contains "half" lqty then "1/2" else "1/4" in
  contains "half" lqty || contains "quarter" lqty = true ->
  exists n q,
    _normalize_quantity_and_name (VStr nm) (quantity_value qty) = Ok (n, q) /\
    (q = frac \/
     exists w, w <> "" /\ all letter_or_hyphen w = true /\ q = frac ++ " " ++ w).
Proof.
  cbv zeta. intros Hw.
  rewrite (normalize_fraction_cases nm qty Hw). unfold fraction_of.
  destruct (re_search fraction_re _) as [[r|]|] eqn:Hs; [|eauto|eauto].
  apply fraction_group in Hs. destruct Hs as (w & [= <-] & Hne & Hl).
  destruct (contains "toast" (lower nm) && contains r (lower nm)); eauto 8.
Qed.

Lemma normalize_fraction_quantity_shape_witness :
  exists n q,
    _normalize_quantity_and_name (VStr "flour") (VStr "2 and a half cups of it")
      = Ok (n, q) /\
    (q = "1/2" \/
     exists w, w <> "" /\ all letter_or_hyphen w = true /\ q = "1/2" ++ " " ++ w).
Proof.
  apply (normalize_fraction_quantity_shape "flour" (Some "2 and a half cups of it")).
  reflexivity.
Defined.

(** X8. When a fraction word is present but the pattern finds no noun
    phrase after it, the quantity is exactly the fraction and the name is
    only trimmed, even if it contains "toast". *)
Theorem normalize_fraction_without_phrase (nm : string) (qty : option string) :
  let lqty := lower (strip (quantity_text qty)) in
  contains "half" lqty || contains "quarter" lqty = true ->
  re_search fraction_re lqty = None ->
  _normalize_quantity_and_name (VStr nm) (quantity_value qty) =
  Ok (strip nm, if contains "half" lqty then "1/2" else "1/4").
Proof.
  cbv zeta. intros Hw Hs.
  rewrite (normalize_fraction_cases nm qty Hw), Hs. reflexivity.
Qed.

Lemma normalize_fraction_without_phrase_witness :
  _normalize_quantity_and_name (VStr "toast") (VStr "One Quarter") =
  Ok ("toast", "1/4").
Proof.
  apply (normalize_fraction_without_phrase "toast" (Some "One Quarter")); reflexivity.
Defined.

(** X25. Once a rule applies (the article pattern matches or a fraction
    word is present), the result depends on the quantity only through its
    trimmed, lower-cased form: upper and lower case and outer blanks of
    the quantity make no difference. *)
Theorem normalize_quantity_case_insensitive (nm q q' : string) :
  lower (strip q) = lower (strip q') ->
  re_match article_re (lower (strip q)) <> None \/
  contains "half" (lower (strip q)) || contains "quarter" (lower (strip q)) = true ->
  _normalize_quantity_and_name (VStr nm) (VStr q) =
  _normalize_quantity_and_name (VStr nm) (VStr q').
Proof.
  intros Heq Hrule.
  change (VStr q) with (quantity_value (Some q)).
  change (VStr q') with (quantity_value (Some q')).
  destruct (fraction_word (lower (strip q))) eqn:Hw.
  - rewrite (normalize_fraction_cases nm (Some q) Hw).
    cbn [quantity_text] in *. rewrite Heq in Hw.
    rewrite (normalize_fraction_cases nm (Some q') Hw).
    cbn [quantity_text]. rewrite Heq. reflexivity.
  - destruct Hrule as [Hart | Hword]; [|unfold fraction_word in Hw; congruence].
    rewrite (normalize_plain_cases nm (Some q) Hw).
    cbn [quantity_text] in *. rewrite Heq in Hw.
    rewrite (normalize_plain_cases nm (Some q') Hw).
    cbn [quantity_text]. unfold article_rule. rewrite <- Heq.
    destruct (re_match article_re (lower (strip q))); [reflexivity | congruence].
Qed.

Lemma normalize_quantity_case_insensitive_witness :
  _normalize_quantity_and_name (VStr "bread") (VStr "  A Slice") =
  _normalize_quantity_and_name (VStr "bread") (VStr "a slice ").
Proof.
  apply normalize_quantity_case_insensitive; [reflexivity|].
  left. discriminate.
Defined.

End MoreNormalizer.

(** ** More on the duplicate merge *)

Section MoreMerge.
Import Str StrFacts Re ReFacts NormalizeFacts ArticleFacts ODict ODictFacts MergeFacts.

Lemma nonempty_eqb q : Str.nonempty q = negb (String.eqb q "").
Proof. destruct q; reflexivity. Qed.

(** What the merge loop leaves under a key, from any starting dict. *)
Lemma get_fold_merge parsed : forall merged k,
  get k (fold_left merge_body parsed merged) =
  match get k merged with
  | Some e =>
      if Str.nonempty (quantity e) then Some e
      else match find (explicit_for k) parsed with
           | Some p => Some p
           | None => Some e
           end
  | None => chosen k parsed
  end.
Proof.
  induction parsed as [|p parsed IH]; intros merged k; cbn [fold_left].
  - unfold chosen. cbn [find].
    destruct (get k merged) as [e|]; [destruct (Str.nonempty (quantity e))|]; reflexivity.
  - rewrite IH, get_merge_body. unfold chosen, explicit_for. cbn [find].
    rewrite (String.eqb_sym (key_of p) k).
    destruct (String.eqb k (key_of p)) eqn:Hk; cbn [andb]; [|reflexivity].
    rewrite !nonempty_eqb.
    destruct (get k merged) as [e|];
      [destruct (String.eqb (quantity e) "") eqn:He|];
      destruct (String.eqb (quantity p) "") eqn:Hp;
      cbn [andb negb]; rewrite ?nonempty_eqb, ?He, ?Hp; cbn [negb]; reflexivity.
Qed.

Lemma get_In {V} (d : ODict.t V) k v : get k d = Some v -> In (k, v) d.
Proof.
  induction d as [|[k0 x] d IH]; simpl; [discriminate|].
  destruct (String.eqb k0 k) eqn:Hk.
  - apply String.eqb_eq in Hk. intros [= <-]. subst. auto.
  - auto.
Qed.

Lemma In_get {V} (d : ODict.t V) k v :
  NoDup (keys d) -> In (k, v) d -> get k d = Some v.
Proof.
  induction d as [|[k0 x] d IH]; simpl; [contradiction|].
  intros Hnd. inversion Hnd as [|? ? Hnotin Hnd']; subst.
  intros [[= -> ->]|Hin].
  - rewrite String.eqb_refl. reflexivity.
  - destruct (String.eqb k0 k) eqn:Hk; [|auto].
    apply String.eqb_eq in Hk. subst k0. exfalso. apply Hnotin.
    unfold keys. apply in_map_iff. exists (k, v). auto.
Qed.

Lemma set_absent {V} (d : ODict.t V) k v :
  mem k d = false -> set k v d = (d ++ [(k, v)])%list.
Proof.
  unfold mem. induction d as [|[k0 x] d IH]; simpl; [reflexivity|].
  destruct (String.eqb k0 k); [discriminate|].
  intros H. rewrite IH by exact H. reflexivity.
Qed.

Lemma merge_body_absent merged p :
  mem (key_of p) merged = false ->
  merge_body merged p = (merged ++ [(key_of p, p)])%list.
Proof. intros H. unfold merge_body. rewrite H. apply set_absent, H. Qed.

(** Entries with pairwise distinct new keys are appended one by one. *)
Lemma fold_merge_distinct parsed : forall merged,
  NoDup (map key_of parsed) ->
  (forall p, In p parsed -> mem (key_of p) merged = false) ->
  fold_left merge_body parsed merged =
  (merged ++ map (fun p => (key_of p, p)) parsed)%list.
Proof.
  induction parsed as [|p parsed IH]; intros merged Hnd Hnew; cbn [fold_left map].
  - rewrite app_nil_r. reflexivity.
  - inversion Hnd as [|? ? Hnotin Hnd']; subst.
    rewrite merge_body_absent by (apply Hnew; left; reflexivity).
    rewrite IH; [rewrite <- app_assoc; reflexivity | exact Hnd' |].
    intros q Hq.
    destruct (mem (key_of q) (merged ++ [(key_of p, p)])%list) eqn:Hm; [|reflexivity].
    apply mem_keys in Hm. unfold keys in Hm. rewrite map_app in Hm.
    apply in_app_or in Hm. destruct Hm as [Hm|[Hm|[]]].
    + apply mem_keys in Hm. rewrite Hnew in Hm by (right; exact Hq). discriminate.
    + cbn [fst] in Hm. exfalso. apply Hnotin. rewrite Hm. apply in_map. exact Hq.
Qed.

Lemma merge_duplicates_distinct parsed :
  NoDup (map key_of parsed) -> merge_duplicates parsed = parsed.
Proof.
  intros Hnd. unfold merge_duplicates.
  rewrite fold_merge_distinct; [|exact Hnd|reflexivity].
  cbn [app]. unfold values. rewrite map_map. cbn [snd]. apply map_id.
Qed.

Lemma NoDup_merge_duplicates parsed : NoDup (map key_of (merge_duplicates parsed)).
Proof. rewrite keys_merge_duplicates. apply NoDup_keys_fold. constructor. Qed.

Lemma keys_merge_first_seen parsed :
  map key_of (merge_duplicates parsed) = first_seen (map key_of parsed).
Proof.
  rewrite keys_merge_duplicates, keys_fold. simpl.
  induction (first_seen (map key_of parsed)) as [|k ks IH]; simpl; congruence.
Qed.

Lemma first_seen_length ks : List.length (first_seen ks) <= List.length ks.
Proof.
  induction ks as [|k ks IH]; simpl; [lia|].
  pose proof (filter_length_le (fun k' => negb (String.eqb k' k)) (first_seen ks)).
  lia.
Qed.

(** X9. The merged list holds, for every key, exactly one entry: the
    first entry with that key that states a quantity, or else the first
    entry with that key. *)
Theorem merge_duplicates_chosen (parsed : list ingredient) (p : ingredient) :
  In p (merge_duplicates parsed) <-> chosen (key_of p) parsed = Some p.
Proof.
  assert (Hget : forall k, get k (fold_left merge_body parsed []) = chosen k parsed).
  { intros k. rewrite get_fold_merge. reflexivity. }
  unfold merge_duplicates, values. split.
  - intros Hp. apply in_map_iff in Hp. destruct Hp as ([k q] & Hq & Hin).
    cbn [snd] in Hq. subst q.
    rewrite (keyed_fold parsed [] keyed_nil k p Hin).
    rewrite <- Hget. apply In_get; [|exact Hin].
    apply NoDup_keys_fold. constructor.
  - intros Hc. rewrite <- Hget in Hc. apply get_In in Hc.
    apply in_map_iff. exists (key_of p, p). auto.
Qed.

Lemma merge_duplicates_chosen_witness :
  In {| name := "egg"; quantity := "2" |}
     (merge_duplicates [ {| name := "Egg"; quantity := "" |};
                         {| name := "egg"; quantity := "2" |};
                         {| name := "EGG"; quantity := "3" |} ]).
Proof. apply (proj2 (merge_duplicates_chosen _ _)). reflexivity. Defined.

(** X10. If some entry with a given key states a quantity, the merged
    list has an entry with that key whose quantity is not empty. *)
Theorem merge_duplicates_prefers_quantity (parsed : list ingredient) (q : ingredient) :
  In q parsed -> quantity q <> "" ->
  exists p,
    In p (merge_duplicates parsed) /\ key_of p = key_of q /\ quantity p <> "".
Proof.
  intros Hq Hne.
  assert (Hex : exists p, find (explicit_for (key_of q)) parsed = Some p).
  { destruct (find (explicit_for (key_of q)) parsed) as [p|] eqn:Hf; [eauto|].
    exfalso. apply (find_none _ _ Hf) in Hq. unfold explicit_for in Hq.
    rewrite String.eqb_refl in Hq. destruct (quantity q); [contradiction|discriminate]. }
  destruct Hex as (p & Hf).
  apply find_some in Hf as Hp. destruct Hp as [_ Hp]. unfold explicit_for in Hp.
  apply andb_prop in Hp. destruct Hp as [Hk Hn]. apply String.eqb_eq in Hk.
  exists p. repeat split.
  - unfold merge_duplicates, values. apply in_map_iff. exists (key_of q, p).
    split; [reflexivity|]. apply get_In. rewrite get_fold_merge. cbn [get].
    unfold chosen. rewrite Hf. reflexivity.
  - exact Hk.
  - intros Hq0. rewrite Hq0 in Hn. discriminate.
Qed.

Lemma merge_duplicates_prefers_quantity_witness :
  exists p,
    In p (merge_duplicates [ {| name := "Egg"; quantity := "" |};
                             {| name := "milk"; quantity := "" |};
                             {| name := " egg"; quantity := "2" |} ]) /\
    key_of p = "egg" /\ quantity p <> "".
Proof.
  apply (merge_duplicates_prefers_quantity _ {| name := " egg"; quantity := "2" |}).
  - right. right. left. reflexivity.
  - discriminate.
Defined.

(** X11. The merge changes nothing in a list whose keys are pairwise
    distinct; so merging a merged list again gives the same list. *)
Theorem merge_duplicates_idempotent (parsed : list ingredient) :
  (NoDup (map key_of parsed) -> merge_duplicates parsed = parsed) /\
  merge_duplicates (merge_duplicates parsed) = merge_duplicates parsed.
Proof.
  split; [apply merge_duplicates_distinct|].
  apply merge_duplicates_distinct, NoDup_merge_duplicates.
Qed.

Lemma merge_duplicates_idempotent_witness :
  merge_duplicates [ {| name := "egg"; quantity := "" |};
                     {| name := "milk"; quantity := "1 cup" |} ]
  = [ {| name := "egg"; quantity := "" |};
      {| name := "milk"; quantity := "1 cup" |} ].
Proof.
  apply (proj1 (merge_duplicates_idempotent _)).
  repeat constructor; simpl; intuition discriminate.
Defined.

(** X12. The merge loses no key and invents none, returns only entries
    of its input, and never returns more entries than it got. *)
Theorem merge_duplicates_keeps_keys (parsed : list ingredient) :
  (forall k, In k (map key_of (merge_duplicates parsed)) <-> In k (map key_of parsed)) /\
  (forall p, In p (merge_duplicates parsed) -> In p parsed) /\
  List.length (merge_duplicates parsed) <= List.length parsed.
Proof.
  split; [|split].
  - intros k. rewrite keys_merge_first_seen. apply first_seen_In.
  - intros p. apply merge_duplicates_subset.
  - rewrite <- (length_map key_of (merge_duplicates parsed)), keys_merge_first_seen.
    rewrite <- (length_map key_of parsed). apply first_seen_length.
Qed.

Lemma merge_duplicates_keeps_keys_witness :
  In {| name := "egg"; quantity := "2" |}
     [ {| name := "Egg"; quantity := "" |}; {| name := "egg"; quantity := "2" |} ].
Proof.
  apply (proj1 (proj2 (merge_duplicates_keeps_keys _))).
  left. reflexivity.
Defined.

End MoreMerge.

(** ** More on parse_ingredients *)

Section MoreLoop.
Import Str StrFacts Re ReFacts NormalizeFacts ArticleFacts ODict ODictFacts MergeFacts.

Lemma parse_ingredients_extracted E text x items :
  extracted x text items ->
  parse_ingredients E text (Some x) =
  (parsed <- for_each extract_body items [] ;; Ok (merge_duplicates parsed)).
Proof.
  intros (out & results & Hout & Hres & Hit). unfold parse_ingredients.
  cbn [bind]. rewrite Hout. cbn [bind]. rewrite Hres. cbn [bind]. rewrite Hit.
  reflexivity.
Qed.

Lemma extract_body_malformed item parsed :
  malformed item -> exists e, extract_body item parsed = Raise e.
Proof.
  destruct item as [| | | | |d]; try (intros _; eexists; reflexivity).
  intros [Ht Hs]. rewrite extract_body_fields, Ht.
  destruct (field "name" d); try (eexists; reflexivity).
  destruct (Hs s eq_refl).
Qed.

Lemma for_each_malformed items : forall item parsed,
  In item items -> malformed item ->
  exists e, for_each extract_body items parsed = Raise e.
Proof.
  induction items as [|it items IH]; intros item parsed Hin Hbad; [destruct Hin|].
  cbn [for_each]. destruct Hin as [-> | Hin].
  - destruct (extract_body_malformed item parsed Hbad) as (e & ->). cbn [bind]. eauto.
  - destruct (extract_body it parsed) as [parsed'|e]; cbn [bind]; eauto.
Qed.

(** The first loop only appends, at most one entry per item, each made
    from an item. *)
Lemma for_each_extract_made items : forall parsed0 parsed,
  for_each extract_body items parsed0 = Ok parsed ->
  exists new,
    parsed = (parsed0 ++ new)%list /\
    List.length new <= List.length items /\
    Forall (made_from items) new.
Proof.
  induction items as [|item items IH]; cbn [for_each]; intros parsed0 parsed H.
  - injection H as <-. exists []. rewrite app_nil_r.
    split; [reflexivity | split; [simpl; lia | constructor]].
  - destruct (extract_body item parsed0) as [parsed1|e] eqn:Hitem; [|discriminate].
    cbn [bind] in H. apply IH in H. destruct H as (new & -> & Hlen & Hall).
    assert (Hweak : Forall (made_from (item :: items)) new).
    { eapply Forall_impl; [|exact Hall].
      intros p (d & raw & Hin & Hrest). exists d, raw. split; [right; exact Hin | exact Hrest]. }
    destruct item as [| | | | |d]; try discriminate.
    rewrite extract_body_fields in Hitem.
    destruct (Py.truthy (field "name" d)) eqn:Ht.
    + destruct (field "name" d) as [| | |raw| |] eqn:Hf; try discriminate.
      cbn [Py.strip bind] in Hitem.
      destruct (_normalize_quantity_and_name (VStr (strip raw)) (field "quantity" d))
        as [[n' q']|e] eqn:Hn; [|discriminate].
      cbn [bind fst snd] in Hitem. injection Hitem as <-.
      exists ({| name := n'; quantity := q' |} :: new).
      rewrite <- app_assoc. split; [reflexivity | split; [simpl; lia|]].
      constructor; [|exact Hweak].
      exists d, raw. repeat split; [left; reflexivity | exact Hf | | exact Hn].
      intros ->. discriminate.
    + injection Hitem as <-. exists new.
      split; [reflexivity | split; [simpl; lia | exact Hweak]].
Qed.

(** X13. When the backend's answer has no "ingredients" key, or an
    empty list under it, [parse_ingredients] returns the empty list. *)
Theorem parse_ingredients_nothing_extracted E text x d :
  extract_json x text schema = Ok (VDict d) ->
  ODict.get "ingredients" d = None \/ ODict.get "ingredients" d = Some (VList []) ->
  parse_ingredients E text (Some x) = Ok [].
Proof.
  intros Hout Hd. unfold parse_ingredients. cbn [bind]. rewrite Hout.
  cbn [bind Py.get]. destruct Hd as [-> | ->]; reflexivity.
Qed.

Lemma parse_ingredients_nothing_extracted_witness :
  parse_ingredients no_library (VStr "water")
    (Some (constant_extractor (VDict [("entities", VList [])]))) = Ok [].
Proof.
  apply (parse_ingredients_nothing_extracted _ _ _ [("entities", VList [])]).
  - reflexivity.
  - left. reflexivity.
Defined.

(** X14. A backend answer of the wrong shape makes [parse_ingredients]
    raise: AttributeError for [get] when the answer is not a dict,
    TypeError when the value under "ingredients" is None, a bool or a
    number. *)
Theorem parse_ingredients_bad_answer E text x out :
  extract_json x text schema = Ok out ->
  ((forall d, out <> VDict d) ->
   parse_ingredients E text (Some x) =
   Raise (AttributeError
     ("'" ++ Py.type_name out ++ "' object has no attribute 'get'"))) /\
  (forall d v,
     out = VDict d -> ODict.get "ingredients" d = Some v ->
     v = VNone \/ (exists b, v = VBool b) \/ (exists z, v = VInt z) ->
     parse_ingredients E text (Some x) =
     Raise (TypeError ("'" ++ Py.type_name v ++ "' object is not iterable"))).
Proof.
  intros Hout. unfold parse_ingredients. cbn [bind]. rewrite Hout. cbn [bind].
  split.
  - intros Hd. destruct out; try reflexivity. destruct (Hd d eq_refl).
  - intros d v -> Hv Hkind. cbn [Py.get bind]. rewrite Hv.
    destruct Hkind as [-> | [(b & ->) | (z & ->)]]; reflexivity.
Qed.

Lemma parse_ingredients_bad_answer_witness :
  parse_ingredients no_library (VStr "water")
    (Some (constant_extractor (VList []))) =
    Raise (AttributeError "'list' object has no attribute 'get'") /\
  parse_ingredients no_library (VStr "water")
    (Some (constant_extractor (VDict [("ingredients", VNone)]))) =
    Raise (TypeError "'NoneType' object is not iterable").
Proof.
  split.
  - apply (proj1 (parse_ingredients_bad_answer no_library (VStr "water")
                    (constant_extractor (VList [])) (VList []) eq_refl)).
    intros d. discriminate.
  - apply (proj2 (parse_ingredients_bad_answer no_library (VStr "water")
                    (constant_extractor (VDict [("ingredients", VNone)])) _ eq_refl)
             [("ingredients", VNone)] VNone); auto.
Defined.

(** X15. One item the loop cannot handle (an item that is not a dict,
    or whose name is true-ish but not a string) makes the whole call
    raise: no partial list is returned. *)
Theorem parse_ingredients_malformed_item E text x items item :
  extracted x text items ->
  In item items -> malformed item ->
  exists e, parse_ingredients E text (Some x) = Raise e.
Proof.
  intros Hx Hin Hbad. rewrite (parse_ingredients_extracted E text x items Hx).
  destruct (for_each_malformed items item [] Hin Hbad) as (e & ->). cbn [bind]. eauto.
Qed.

Lemma parse_ingredients_malformed_item_witness :
  exists e,
    parse_ingredients no_library (VStr "eggs")
      (Some (constant_extractor
         (VDict [("ingredients",
                  VList [raw_item (VStr "egg") (VStr "2"); VStr "milk"])])))
    = Raise e.
Proof.
  apply (parse_ingredients_malformed_item _ _ _
           [raw_item (VStr "egg") (VStr "2"); VStr "milk"] (VStr "milk")).
  - eexists. eexists. repeat split.
  - right. left. reflexivity.
  - exact I.
Defined.

(** X16. A list that [parse_ingredients] returns has at most one entry
    per extracted item, and every entry is the normalizer's result for
    one dict item whose name field (unwrapped) is a non-empty string,
    applied to the trimmed name and the item's quantity field. *)
Theorem parse_ingredients_made_from_items E text x items l :
  extracted x text items ->
  parse_ingredients E text (Some x) = Ok l ->
  List.length l <= List.length items /\ Forall (made_from items) l.
Proof.
  intros Hx. rewrite (parse_ingredients_extracted E text x items Hx).
  destruct (for_each extract_body items []) as [parsed|e] eqn:Hloop; [|discriminate].
  cbn [bind]. intros [= <-].
  apply for_each_extract_made in Hloop. destruct Hloop as (new & -> & Hlen & Hall).
  cbn [app]. split.
  - pose proof (first_seen_length (map key_of new)) as Hfs.
    rewrite <- keys_merge_first_seen, !length_map in Hfs. lia.
  - apply Forall_forall. intros p Hp. apply merge_duplicates_subset in Hp.
    revert p Hp. apply Forall_forall. exact Hall.
Qed.

Lemma parse_ingredients_made_from_items_witness :
  List.length [ {| name := "tomato"; quantity := "2 slices" |} ] <=
  List.length [raw_item (VStr "Tomato") (VStr "");
               raw_item (VStr "tomato") (VStr "2 slices")] /\
  Forall (made_from [raw_item (VStr "Tomato") (VStr "");
                     raw_item (VStr "tomato") (VStr "2 slices")])
         [ {| name := "tomato"; quantity := "2 slices" |} ].
Proof.
  apply (parse_ingredients_made_from_items no_library (VStr "tomato")
           (constant_extractor tomato_out)).
  - eexists. eexists. repeat split.
  - reflexivity.
Defined.

End MoreLoop.

(** ** More on the route and the loader *)

Section MoreRoute.
Import Str StrFacts Re ReFacts NormalizeFacts ArticleFacts ODict ODictFacts MergeFacts.

Lemma extract_body_well_formed item parsed :
  well_formed item -> exists parsed', extract_body item parsed = Ok parsed'.
Proof.
  intros (d & -> & Hn & Hq). rewrite extract_body_fields.
  destruct Hn as [Hn | (raw & Hn)]; rewrite Hn; [cbn [Py.truthy]; eauto|].
  destruct raw as [|c raw]; [cbn [Py.truthy nonempty]; eauto|]. cbn [Py.truthy nonempty Py.strip bind].
  assert (Hopt : exists qty, field "quantity" d = quantity_value qty).
  { destruct Hq as [-> | (s & ->)]; [exists None | exists (Some s)]; reflexivity. }
  destruct Hopt as (qty & ->).
  destruct (normalize_strings_ok (strip (String c raw)) qty) as (n & q & ->).
  cbn [bind]. eauto.
Qed.

Lemma for_each_well_formed items : forall parsed,
  Forall well_formed items ->
  exists parsed', for_each extract_body items parsed = Ok parsed'.
Proof.
  induction items as [|item items IH]; intros parsed Hall; cbn [for_each]; [eauto|].
  inversion Hall as [|? ? Hitem Hrest]; subst.
  destruct (extract_body_well_formed item parsed Hitem) as (parsed1 & ->).
  cbn [bind]. apply IH, Hrest.
Qed.

Lemma parse_route_no_text E d :
  ODict.get "text" d = None ->
  parse_route E (VDict d) =
  Ok {| status := 400; body := error_body "missing 'text' in JSON body" |}.
Proof.
  intros Hd. unfold parse_route. destruct d as [|kv d]; [reflexivity|].
  cbn [Py.truthy negb py_in bind]. unfold ODict.mem. rewrite Hd. reflexivity.
Qed.

Lemma parse_route_falsy E payload :
  Py.truthy payload = false ->
  parse_route E payload =
  Ok {| status := 400; body := error_body "missing 'text' in JSON body" |}.
Proof. intros Ht. unfold parse_route. rewrite Ht. reflexivity. Qed.

(** X17. When every extracted item has the shape the schema asks for (a
    dict whose name and quantity, unwrapped, are strings or None),
    [parse_ingredients] does not raise. *)
Theorem parse_ingredients_well_formed_ok E text x items :
  extracted x text items -> Forall well_formed items ->
  exists l, parse_ingredients E text (Some x) = Ok l.
Proof.
  intros Hx Hall. rewrite (parse_ingredients_extracted E text x items Hx).
  destruct (for_each_well_formed items [] Hall) as (parsed & ->).
  cbn [bind]. eauto.
Qed.

Lemma parse_ingredients_well_formed_ok_witness :
  exists l,
    parse_ingredients no_library (VStr "tomato")
      (Some (constant_extractor tomato_out)) = Ok l.
Proof.
  apply (parse_ingredients_well_formed_ok _ _ _
           [raw_item (VStr "Tomato") (VStr ""); raw_item (VStr "tomato") (VStr "2 slices")]).
  - eexists. eexists. repeat split.
  - repeat constructor; eexists; (split; [reflexivity|]); split; right; eexists; reflexivity.
Defined.

(** X18. For a body that is a JSON object, or that is absent or
    false-ish, the route never raises: it answers 200 with an
    "ingredients" list, or 400 or 500 with an "error" message. *)
Theorem parse_route_always_answers E payload :
  Py.truthy payload = false \/ (exists d, payload = VDict d) ->
  exists r,
    parse_route E payload = Ok r /\
    ((status r = 200 /\ exists l, body r = ingredients_body l) \/
     ((status r = 400 \/ status r = 500) /\ exists msg, body r = error_body msg)).
Proof.
  assert (Herr : forall st msg, st = 400 \/ st = 500 ->
            exists r, Ok {| status := st; body := error_body msg |} = Ok r /\
              ((status r = 200 /\ exists l, body r = ingredients_body l) \/
               ((status r = 400 \/ status r = 500) /\ exists m, body r = error_body m))).
  { intros st msg Hst. eexists. split; [reflexivity|]. right. split; [exact Hst|].
    exists msg. reflexivity. }
  intros [Ht | (d & ->)].
  - rewrite (parse_route_falsy E payload Ht). apply Herr. auto.
  - destruct (ODict.get "text" d) as [text|] eqn:Hd.
    + rewrite (parse_route_text E d text Hd).
      destruct (load_extractor E (use_api_of E) (DEFAULT_MODEL E)) as [x|e];
        [|apply Herr; auto].
      destruct (parse_ingredients E text (Some x)) as [l|e]; [|apply Herr; auto].
      eexists. split; [reflexivity|]. left. split; [reflexivity|].
      exists l. reflexivity.
    + rewrite (parse_route_no_text E d Hd). apply Herr. auto.
Qed.

Lemma parse_route_always_answers_witness :
  exists r,
    parse_route no_library (VDict [("text", VInt 3)]) = Ok r /\
    ((status r = 200 /\ exists l, body r = ingredients_body l) \/
     ((status r = 400 \/ status r = 500) /\ exists msg, body r = error_body msg)).
Proof.
  apply parse_route_always_answers. right. eexists. reflexivity.
Defined.

(** X19. A true-ish body that is a bool or a number makes the
    membership test raise TypeError; a string that contains "text" or a
    list that contains the string "text" passes the test and makes the
    lookup raise TypeError.  The route handles neither. *)
Theorem parse_route_unhandled_bodies E payload :
  (payload = VBool true \/ (exists z, z <> 0%Z /\ payload = VInt z) \/
   (exists s, contains "text" s = true /\ payload = VStr s) \/
   (exists l, In (VStr "text") l /\ payload = VList l)) ->
  exists msg, parse_route E payload = Raise (TypeError msg).
Proof.
  intros [-> | [(z & Hz & ->) | [(s & Hs & ->) | (l & Hl & ->)]]].
  - eexists. reflexivity.
  - unfold parse_route. cbn [Py.truthy].
    destruct (Z.eqb z 0) eqn:Hz0; [apply Z.eqb_eq in Hz0; contradiction|].
    eexists. reflexivity.
  - unfold parse_route. destruct s as [|c s]; [discriminate|].
    cbn [Py.truthy nonempty negb py_in bind]. rewrite Hs.
    eexists. reflexivity.
  - unfold parse_route. destruct l as [|v l]; [destruct Hl|].
    cbn [Py.truthy negb py_in bind].
    assert (Hex : existsb (fun x => match x with VStr s => String.eqb s "text" | _ => false end)
                    (v :: l) = true).
    { apply existsb_exists. exists (VStr "text"). split; [exact Hl | reflexivity]. }
    rewrite Hex. eexists. reflexivity.
Qed.

Lemma parse_route_unhandled_bodies_witness :
  exists msg, parse_route no_library (VStr "some text here") = Raise (TypeError msg).
Proof.
  apply parse_route_unhandled_bodies. right. right. left.
  exists "some text here". split; reflexivity.
Defined.

(** X20. A body that is a JSON list without the element "text", or a
    JSON string without the substring "text", is answered with 400 like
    an object without the key. *)
Theorem parse_route_list_or_string_body E payload :
  (exists l, ~ In (VStr "text") l /\ payload = VList l) \/
  (exists s, contains "text" s = false /\ payload = VStr s) ->
  parse_route E payload =
  Ok {| status := 400; body := error_body "missing 'text' in JSON body" |}.
Proof.
  intros [(l & Hl & ->) | (s & Hs & ->)].
  - unfold parse_route. destruct l as [|v l]; [reflexivity|].
    cbn [Py.truthy negb py_in bind].
    destruct (existsb _ (v :: l)) eqn:Hex; [|reflexivity].
    apply existsb_exists in Hex. destruct Hex as (y & Hy & Heq).
    destruct y; try discriminate. apply String.eqb_eq in Heq. subst.
    contradiction.
  - unfold parse_route. destruct s as [|c s]; [reflexivity|].
    cbn [Py.truthy nonempty negb py_in bind]. rewrite Hs. reflexivity.
Qed.

Lemma parse_route_list_or_string_body_witness :
  parse_route no_library (VList [VStr "two eggs"]) =
  Ok {| status := 400; body := error_body "missing 'text' in JSON body" |}.
Proof.
  apply parse_route_list_or_string_body. left. exists [VStr "two eggs"].
  split; [|reflexivity]. intros [H|[]]. discriminate.
Defined.

(** X21. Without the extraction library every request that has a text
    is answered 500 with the loader's message, and [parse_ingredients]
    without an extractor raises RuntimeError with that message, whether
    or not an API key is set. *)
Theorem no_library_always_fails E :
  GLiNER2 E = None ->
  exists msg,
    startswith "GLiNER2 library not available; install gliner2 or " msg = true /\
    (forall text, parse_ingredients E text None = Raise (RuntimeError msg)) /\
    (forall d text,
       ODict.get "text" d = Some text ->
       parse_route E (VDict d) = Ok {| status := 500; body := error_body msg |}).
Proof.
  intros Hlib.
  assert (Hload : exists msg,
            startswith "GLiNER2 library not available; install gliner2 or " msg = true /\
            load_extractor E (use_api_of E) (DEFAULT_MODEL E) = Raise (RuntimeError msg)).
  { unfold load_extractor. rewrite Hlib.
    destruct (use_api_of E); eexists; (split; [|reflexivity]); reflexivity. }
  destruct Hload as (msg & Hmsg & Hload). exists msg.
  split; [exact Hmsg | split].
  - intros text. unfold parse_ingredients. rewrite Hload. reflexivity.
  - intros d text Hd. rewrite (parse_route_text E d text Hd), Hload. reflexivity.
Qed.

Lemma no_library_always_fails_witness :
  exists msg,
    startswith "GLiNER2 library not available; install gliner2 or " msg = true /\
    (forall text,
       parse_ingredients
         {| GLiNER2 := None; GLINER2_MODEL := None; PIONEER_API_KEY := Some "k" |}
         text None = Raise (RuntimeError msg)) /\
    (forall d text,
       ODict.get "text" d = Some text ->
       parse_route
         {| GLiNER2 := None; GLINER2_MODEL := None; PIONEER_API_KEY := Some "k" |}
         (VDict d) = Ok {| status := 500; body := error_body msg |}).
Proof. apply no_library_always_fails. reflexivity. Defined.

(** X22. With the library present, the loader the route uses runs in
    API mode exactly when PIONEER_API_KEY is set to a non-empty text;
    otherwise it loads the model named by GLINER2_MODEL (even when that
    is set to the empty text) or, when unset, the default model. *)
Theorem load_extractor_mode E lib :
  GLiNER2 E = Some lib ->
  load_extractor E (use_api_of E) (DEFAULT_MODEL E) =
  match PIONEER_API_KEY E with
  | Some (String _ _) => from_api lib
  | _ =>
      from_pretrained lib
        (match GLINER2_MODEL E with
         | Some m => m
         | None => "fastino/gliner2-base-v1"
         end)
  end.
Proof.
  intros Hlib. unfold load_extractor, use_api_of, DEFAULT_MODEL. rewrite Hlib.
  destruct (PIONEER_API_KEY E) as [[|c k]|]; reflexivity.
Qed.

Lemma load_extractor_mode_witness :
  load_extractor empty_key_env (use_api_of empty_key_env)
    (DEFAULT_MODEL empty_key_env)
  = Ok (constant_extractor VNone).
Proof. exact (load_extractor_mode empty_key_env local_only eq_refl). Defined.

(** X23. A request with a text whose extracted items all have the shape
    the schema asks for is answered with 200, once the extractor
    loads. *)
Theorem parse_route_well_formed_200 E d text x items :
  ODict.get "text" d = Some text ->
  load_extractor E (use_api_of E) (DEFAULT_MODEL E) = Ok x ->
  extracted x text items -> Forall well_formed items ->
  exists l, parse_route E (VDict d) = Ok {| status := 200; body := ingredients_body l |}.
Proof.
  intros Hd Hload Hx Hall. rewrite (parse_route_text E d text Hd), Hload.
  rewrite (parse_ingredients_extracted E text x items Hx).
  destruct (for_each_well_formed items [] Hall) as (parsed & ->).
  cbn [bind]. exists (merge_duplicates parsed). reflexivity.
Qed.

Lemma parse_route_well_formed_200_witness :
  exists l,
    parse_route (with_extractor (constant_extractor tomato_out))
      (VDict [("text", VStr "tomato, two slices")])
    = Ok {| status := 200; body := ingredients_body l |}.
Proof.
  apply (parse_route_well_formed_200 _ _ (VStr "tomato, two slices")
           (constant_extractor tomato_out)
           [raw_item (VStr "Tomato") (VStr ""); raw_item (VStr "tomato") (VStr "2 slices")]).
  - reflexivity.
  - reflexivity.
  - eexists. eexists. repeat split.
  - repeat constructor; eexists; (split; [reflexivity|]); split; right; eexists; reflexivity.
Defined.

End MoreRoute.

(** ** More on the article pattern *)

Section MorePattern.
Import Str StrFacts Re ReFacts NormalizeFacts ArticleFacts ODict ODictFacts MergeFacts.

Lemma article_tail_inv_dot pos rest g :
  run article_tail matched pos rest None = Some g ->
  (g = None /\ at_end rest = true) \/
  (exists ws r tail,
     ws <> "" /\ all isspace ws = true /\ all dot r = true /\
     at_end tail = true /\ g = Some r /\ rest = ws ++ r ++ tail).
Proof.
  unfold article_tail, Plus. cbn [run]. intros H.
  apply orelse_some in H. destruct H as [H | H].
  - right. destruct rest as [|c rest]; [discriminate|].
    destruct (space c) eqn:Hc; [|discriminate].
    apply star_k_inv in H. destruct H as (w & rest1 & -> & Hw & H).
    apply star_k_inv in H. destruct H as (r & tail & -> & Hr & H).
    cbn beta in H.
    destruct (at_end tail) eqn:Ht; [|discriminate].
    unfold matched in H.
    match type of H with
    | context [take (?a + ?b - ?a) _] => replace (a + b - a) with b in H by lia
    end.
    rewrite take_append in H. injection H as <-.
    exists (String c w), r, tail. repeat split; try assumption; try discriminate.
    simpl. unfold space in Hc. rewrite Hc. exact Hw.
  - left. destruct (at_end rest); [|discriminate]. injection H as <-. auto.
Qed.

Lemma lstrip_split r :
  exists ws, all isspace ws = true /\ r = ws ++ lstrip r.
Proof.
  induction r as [|c r (ws & Hws & Hr)]; [exists ""; auto|].
  cbn [lstrip]. destruct (isspace c) eqn:Hc.
  - exists (String c ws). simpl. rewrite Hc, Hws. split; [reflexivity|]. congruence.
  - exists "". auto.
Qed.

Lemma all_lstrip p r : all p r = true -> all p (lstrip r) = true.
Proof.
  induction r as [|c r IH]; [auto|]. cbn [lstrip].
  destruct (isspace c); [|auto]. simpl. intros H. apply andb_prop in H. tauto.
Qed.

(** X24. On a trimmed text the article pattern of line 56 matches
    exactly the texts "a" and "an" and those that start with "a" or "an",
    white space and further text without a line break. *)
Theorem article_pattern_matches (s : string) :
  (forall c, last s = Some c -> isspace c = false) ->
  (re_match article_re s <> None <-> article_form s).
Proof.
  intros Hlast. split.
  - destruct (re_match article_re s) as [g|] eqn:Hm; [intros _|congruence].
    rewrite article_re_alt in Hm.
    assert (Hany : exists art rest pos, (art = "a" \/ art = "an") /\ s = art ++ rest /\
              run article_tail matched pos rest None = Some g).
    { apply orelse_some in Hm. destruct Hm as [H | H];
        apply lit_k_inv in H; destruct H as (rest & -> & H); eauto 8. }
    destruct Hany as (art & rest & pos & Hart & -> & H).
    exists art. split; [exact Hart|].
    assert (Htail : forall x tail, at_end tail = true ->
              (forall c, last (x ++ tail) = Some c -> isspace c = false) -> tail = "").
    { intros x tail Ht Hl. apply at_end_trimmed in Ht.
      destruct Ht as [-> | ->]; [reflexivity|].
      specialize (Hl "010"%char). rewrite last_append in Hl. simpl in Hl.
      discriminate (Hl eq_refl). }
    apply article_tail_inv_dot in H.
    destruct H as [[_ Hend] | (ws & r & tail & Hne & Hws & Hdot & Hend & _ & ->)].
    + left. apply (Htail art) in Hend; [|exact Hlast]. subst rest.
      apply append_nil_r.
    + right.
      assert (tail = "").
      { apply (Htail (art ++ ws ++ r)); [exact Hend|].
        rewrite !append_assoc. exact Hlast. }
      subst tail. rewrite append_nil_r in *.
      exists ws, r. repeat split; try assumption.
      intros ->. rewrite append_nil_r in Hlast.
      destruct (last_space_append art ws Hne Hws) as (c & Hc & Hsp).
      rewrite (Hlast c Hc) in Hsp. discriminate.
  - intros (art & Hart & [-> | (ws & r & Hne & Hws & Hr & Hdot & ->)]).
    + rewrite article_match_bare by exact Hart. discriminate.
    + destruct (lstrip_split r) as (ws2 & Hws2 & Hsplit).
      rewrite Hsplit, <- (append_assoc ws ws2).
      rewrite (article_match_phrase art (ws ++ ws2) (lstrip r)).
      * discriminate.
      * exact Hart.
      * destruct ws; [contradiction | discriminate].
      * rewrite all_append, Hws, Hws2. reflexivity.
      * apply all_lstrip, Hdot.
      * apply head_lstrip.
Qed.

Lemma article_pattern_matches_witness :
  re_match article_re "an   old  apple" <> None.
Proof.
  apply (proj2 (article_pattern_matches "an   old  apple"
                  (fun c H => match H in _ = o return
                     match o with Some x => isspace x = false | None => True end
                   with eq_refl => eq_refl end))).
  exists "an". split; [right; reflexivity|]. right.
  exists " ", "  old  apple". repeat split; discriminate.
Defined.

End MorePattern.
